(** * teer: a cooperative task scheduler (teer.py)

    A shallow embedding of the scheduler of [teer.py]: the task table, the
    ready queue, the exit-wait and condition-wait registries, the pause
    sets, the timer-ordered scheduler, the rate helper and the system
    calls, followed by the properties proved about them.

    Modelling conventions.
    - A [Task] object is identified by its [tid] (ids are unique: the
      class counter [Task.taskid] only grows).  The store [tasks] maps a
      tid to the mutable fields of the object; [taskmap] is the
      scheduler's dictionary of live tasks (its keys).
    - A generator is an abstract resumable state [gen] with a transition
      function [send]; [target = None] is a generator that has finished
      or has been closed, on which [send] raises [StopIteration].  Bodies
      are assumed not to intercept [GeneratorExit], so [close()] only
      marks the generator finished.
    - Time stamps and durations are integers (ticks) instead of floats;
      [current_time()] reads the field [clock], [sleep d] advances it.
    - [heapq] is library code: the heap is modelled by its contents,
      [heappush] adds an entry and [heappop] removes the least entry in
      the order of Python's list comparison on [[t, counter, f]].
    - Condition variables live in [cvars]; a predicate object is abstract,
      with its [co_names] and its truth value on the current variables.
    - Printing (logs, [TeerPrint]) has no effect on the state. *)

From stdpp Require Import gmap strings list fin_maps sorting.

Local Open Scope Z_scope.

#[local] Set Warnings "-clear-no-such-hyp".

(** ** Values and requests *)

Inductive wmode := WAIT_ANY | WAIT_ALL.

(** Values a task receives through [sendval]. *)
Inductive value :=
| VNone
| VBool (b : bool)
| VTid (n : nat)
| VTids (l : list nat)
| VTasks (l : list nat)
| VTime (t : Z)
| VRate (r : nat)
| VSched.

(** The system calls of teer.py, over the types of generator objects [G]
    and of predicate objects [C]. *)
Inductive SystemCall (G C : Type) :=
| SysBase
| GetScheduler
| GetTid
| GetTids
| NewTask (target : G)
| KillTask (tid : nat)
| KillTasks (tids : list nat)
| KillAllTasksExcept (except_tids : list nat)
| WaitTask (tid : nat)
| WaitAnyTasks (tids : list nat)
| WaitAllTasks (tids : list nat)
| PauseTask (tid : nat)
| PauseTasks (tids : list nat)
| ResumeTask (tid : nat)
| ResumeTasks (tids : list nat)
| GetCurrentTime
| WaitDuration (duration : Z)
| WaitCondition (cond : C)
| CreateRate (duration : Z)
| Sleep (rate : nat)
| TeerPrint (msg : string).

Arguments SysBase {G C}.
Arguments GetScheduler {G C}.
Arguments GetTid {G C}.
Arguments GetTids {G C}.
Arguments NewTask {G C} target.
Arguments KillTask {G C} tid.
Arguments KillTasks {G C} tids.
Arguments KillAllTasksExcept {G C} except_tids.
Arguments WaitTask {G C} tid.
Arguments WaitAnyTasks {G C} tids.
Arguments WaitAllTasks {G C} tids.
Arguments PauseTask {G C} tid.
Arguments PauseTasks {G C} tids.
Arguments ResumeTask {G C} tid.
Arguments ResumeTasks {G C} tids.
Arguments GetCurrentTime {G C}.
Arguments WaitDuration {G C} duration.
Arguments WaitCondition {G C} cond.
Arguments CreateRate {G C} duration.
Arguments Sleep {G C} rate.
Arguments TeerPrint {G C} msg.

(** What [target.send(sendval)] does: the generator finishes, raises some
    other exception, or yields (a request or a plain value) and suspends
    in a new state. *)
Inductive sendres (G C : Type) :=
| StopIteration
| BodyFault
| Yield (req : option (SystemCall G C)) (g : G).

Arguments StopIteration {G C}.
Arguments BodyFault {G C}.
Arguments Yield {G C} req g.

(** The program run by the scheduler: its generators and predicates. *)
Class Host := {
  gen : Type;
  condition : Type;
  condition_eq_dec :: EqDecision condition;
  co_names : condition → list string;
  call : condition → gmap string Z → bool;
  send : gen → value → sendres gen condition;
}.

(** ** Exceptions and results *)

Inductive exn :=
| KeyError | IndexError | ValueError | AttributeError | BodyError.

Inductive result (A : Type) :=
| Ok (a : A)
| Raise (e : exn)
| OutOfFuel.

Arguments Ok {A} a.
Arguments Raise {A} e.
Arguments OutOfFuel {A}.

Definition result_bind {A B} (f : A → result B) (m : result A) : result B :=
  match m with
  | Ok a => f a
  | Raise e => Raise e
  | OutOfFuel => OutOfFuel
  end.

Notation "x <- m ;; k" := (result_bind (fun x => k) m)
  (at level 100, m at next level, right associativity).

(** [l.remove(x)] of a Python list: the first occurrence goes, [None]
    stands for the [ValueError] raised when there is none. *)
Fixpoint list_remove {A} `{EqDecision A} (x : A) (l : list A) : option (list A) :=
  match l with
  | [] => None
  | y :: l' => if decide (y = x) then Some l'
               else match list_remove x l' with
                    | Some r => Some (y :: r)
                    | None => None
                    end
  end.

(** ** Objects and the scheduler state *)

Record Rate := mkRate { duration : Z; last_time : Z }.

(** The two closures handed to [set_timer_callback]: [resume(task)] of
    [wait_duration] and [resume(task, rate)] of [wait_duration_rate]. *)
Inductive callback :=
| Resume (task : nat)
| ResumeRate (task : nat) (rate : nat).

Global Instance callback_eq_dec : EqDecision callback.
Proof. solve_decision. Defined.

Definition cb_task (f : callback) : nat :=
  match f with Resume t => t | ResumeRate t _ => t end.

(** A heap entry [[t, counter, f]]. *)
Definition entry : Type := Z * nat * callback.

Definition entry_time (e : entry) : Z := e.1.1.
Definition entry_seq (e : entry) : nat := e.1.2.
Definition entry_cb (e : entry) : callback := e.2.

(** Python's [<=] on [[t, counter, ...]]: by deadline, then by counter. *)
Definition entry_le (a b : entry) : bool :=
  (entry_time a <? entry_time b) ||
  ((entry_time a =? entry_time b) && (entry_seq a <=? entry_seq b)%nat).

(** The order (deadline, sequence) itself. *)
Definition entry_leq (a b : entry) : Prop :=
  entry_time a < entry_time b ∨
  (entry_time a = entry_time b ∧ (entry_seq a ≤ entry_seq b)%nat).

Definition heappush (l : list entry) (e : entry) : list entry := e :: l.

Fixpoint heappop (l : list entry) : option (entry * list entry) :=
  match l with
  | [] => None
  | e :: l' =>
      match heappop l' with
      | None => Some (e, [])
      | Some (m, r) => if entry_le e m then Some (e, l') else Some (m, e :: r)
      end
  end.

Section Model.
Context `{Host}.

Record Task := mkTask {
  target : option gen;
  sendval : value;
  waitmode : wmode;
}.

Record Scheduler := mkScheduler {
  tasks : gmap nat Task;
  taskid : nat;
  taskmap : gset nat;
  ready : list nat;
  exit_waiting : gmap nat (list nat);
  cond_waiting : gmap string (list (condition * nat));
  paused_in_syscall : gset nat;
  paused_in_ready : gset nat;
  timer_cb : list entry;
  timer_counter : nat;
  clock : Z;
  cvars : gmap string Z;
  rates : gmap nat Rate;
}.

Definition Scheduler_init (now : Z) (vars : gmap string Z) : Scheduler :=
  mkScheduler ∅ 0 ∅ [] ∅ ∅ ∅ ∅ [] 0 now vars ∅.

(** Field updates. *)
Definition set_tasks (f : gmap nat Task → gmap nat Task) (s : Scheduler) :=
  mkScheduler (f (tasks s)) (taskid s) (taskmap s) (ready s) (exit_waiting s)
    (cond_waiting s) (paused_in_syscall s) (paused_in_ready s) (timer_cb s)
    (timer_counter s) (clock s) (cvars s) (rates s).
Definition set_taskid (n : nat) (s : Scheduler) :=
  mkScheduler (tasks s) n (taskmap s) (ready s) (exit_waiting s)
    (cond_waiting s) (paused_in_syscall s) (paused_in_ready s) (timer_cb s)
    (timer_counter s) (clock s) (cvars s) (rates s).
Definition set_taskmap (m : gset nat) (s : Scheduler) :=
  mkScheduler (tasks s) (taskid s) m (ready s) (exit_waiting s)
    (cond_waiting s) (paused_in_syscall s) (paused_in_ready s) (timer_cb s)
    (timer_counter s) (clock s) (cvars s) (rates s).
Definition set_ready (r : list nat) (s : Scheduler) :=
  mkScheduler (tasks s) (taskid s) (taskmap s) r (exit_waiting s)
    (cond_waiting s) (paused_in_syscall s) (paused_in_ready s) (timer_cb s)
    (timer_counter s) (clock s) (cvars s) (rates s).
Definition set_exit_waiting (m : gmap nat (list nat)) (s : Scheduler) :=
  mkScheduler (tasks s) (taskid s) (taskmap s) (ready s) m
    (cond_waiting s) (paused_in_syscall s) (paused_in_ready s) (timer_cb s)
    (timer_counter s) (clock s) (cvars s) (rates s).
Definition set_cond_waiting (m : gmap string (list (condition * nat)))
    (s : Scheduler) :=
  mkScheduler (tasks s) (taskid s) (taskmap s) (ready s) (exit_waiting s)
    m (paused_in_syscall s) (paused_in_ready s) (timer_cb s)
    (timer_counter s) (clock s) (cvars s) (rates s).
Definition set_paused (ps pr : gset nat) (s : Scheduler) :=
  mkScheduler (tasks s) (taskid s) (taskmap s) (ready s) (exit_waiting s)
    (cond_waiting s) ps pr (timer_cb s)
    (timer_counter s) (clock s) (cvars s) (rates s).
Definition set_timers (l : list entry) (n : nat) (s : Scheduler) :=
  mkScheduler (tasks s) (taskid s) (taskmap s) (ready s) (exit_waiting s)
    (cond_waiting s) (paused_in_syscall s) (paused_in_ready s) l
    n (clock s) (cvars s) (rates s).
Definition set_clock (t : Z) (s : Scheduler) :=
  mkScheduler (tasks s) (taskid s) (taskmap s) (ready s) (exit_waiting s)
    (cond_waiting s) (paused_in_syscall s) (paused_in_ready s) (timer_cb s)
    (timer_counter s) t (cvars s) (rates s).
Definition set_cvars (m : gmap string Z) (s : Scheduler) :=
  mkScheduler (tasks s) (taskid s) (taskmap s) (ready s) (exit_waiting s)
    (cond_waiting s) (paused_in_syscall s) (paused_in_ready s) (timer_cb s)
    (timer_counter s) (clock s) m (rates s).
Definition set_rates (m : gmap nat Rate) (s : Scheduler) :=
  mkScheduler (tasks s) (taskid s) (taskmap s) (ready s) (exit_waiting s)
    (cond_waiting s) (paused_in_syscall s) (paused_in_ready s) (timer_cb s)
    (timer_counter s) (clock s) (cvars s) m.

(** Assignments to the fields of a [Task] object. *)
Definition set_sendval (t : nat) (v : value) (s : Scheduler) : Scheduler :=
  set_tasks (alter (λ k, mkTask (target k) v (waitmode k)) t) s.
Definition set_waitmode (t : nat) (m : wmode) (s : Scheduler) : Scheduler :=
  set_tasks (alter (λ k, mkTask (target k) (sendval k) m) t) s.
Definition set_target (t : nat) (g : option gen) (s : Scheduler) : Scheduler :=
  set_tasks (alter (λ k, mkTask g (sendval k) (waitmode k)) t) s.

(** [task.target.close()] *)
Definition close (t : nat) (s : Scheduler) : Scheduler := set_target t None s.

Definition task_waitmode (s : Scheduler) (t : nat) : wmode :=
  match tasks s !! t with
  | Some k => waitmode k
  | None => WAIT_ANY
  end.

Definition task_sendval (s : Scheduler) (t : nat) : value :=
  match tasks s !! t with
  | Some k => sendval k
  | None => VNone
  end.

Definition task_target (s : Scheduler) (t : nat) : option gen :=
  match tasks s !! t with
  | Some k => target k
  | None => None
  end.

(** ** Scheduler (base class) *)

(** [schedule]: a task paused while parked becomes paused-while-ready,
    any other task is appended to the ready queue. *)
Definition schedule (t : nat) (s : Scheduler) : Scheduler :=
  if decide (t ∈ paused_in_syscall s)
  then set_paused (paused_in_syscall s ∖ {[t]}) ({[t]} ∪ paused_in_ready s) s
  else set_ready (ready s ++ [t]) s.

(** [schedule_now]: the same, with [appendleft]. *)
Definition schedule_now (t : nat) (s : Scheduler) : Scheduler :=
  if decide (t ∈ paused_in_syscall s)
  then set_paused (paused_in_syscall s ∖ {[t]}) ({[t]} ∪ paused_in_ready s) s
  else set_ready (t :: ready s) s.

Definition new (g : gen) (s : Scheduler) : nat * Scheduler :=
  let tid := S (taskid s) in
  let s1 := set_taskid tid s in
  let s2 := set_tasks (<[tid := mkTask (Some g) VNone WAIT_ANY]>) s1 in
  let s3 := set_taskmap ({[tid]} ∪ taskmap s2) s2 in
  (tid, schedule tid s3).

(** The loop of [exit] that removes a watcher from a list of waiting
    tasks while iterating over that same list: position [i] advances by
    one at every turn, also after a removal. *)
Fixpoint drop_waiter_loop (n i : nat) (t : nat) (l : list nat) : list nat :=
  match n with
  | O => l
  | S n' =>
      match l !! i with
      | None => l
      | Some w =>
          if decide (w = t)
          then drop_waiter_loop n' (S i) t (default l (list_remove w l))
          else drop_waiter_loop n' (S i) t l
      end
  end.

Definition drop_waiter (t : nat) (l : list nat) : list nat :=
  drop_waiter_loop (length l) 0 t l.

Definition still_waiting (t : nat) (m : gmap nat (list nat)) : bool :=
  bool_decide (map_Exists (λ _ l, t ∈ l) m).

(** One turn of the notification loop of [exit], for the watcher [w] of
    the exiting task [x]. *)
Definition notify (x : nat) (s : Scheduler) (w : nat) : Scheduler :=
  match task_waitmode s w with
  | WAIT_ANY =>
      schedule w (set_sendval w (VTid x)
        (set_exit_waiting (drop_waiter w <$> exit_waiting s) s))
  | WAIT_ALL =>
      if still_waiting w (exit_waiting s) then s
      else schedule w (set_sendval w (VTid x) s)
  end.

Definition exit (x : nat) (s : Scheduler) : result Scheduler :=
  if decide (x ∈ taskmap s) then
    let s1 := set_taskmap (taskmap s ∖ {[x]}) s in
    let ws := default [] (exit_waiting s1 !! x) in
    let s2 := set_exit_waiting (delete x (exit_waiting s1)) s1 in
    let s3 := foldl (notify x) s2 ws in
    Ok (set_exit_waiting (filter (λ kv, kv.2 ≠ []) (exit_waiting s3)) s3)
  else Raise KeyError.

Definition wait_for_exit (task waittid : nat) (s : Scheduler)
    : bool * Scheduler :=
  if decide (waittid ∈ taskmap s)
  then (true, set_exit_waiting
          (<[waittid := default [] (exit_waiting s !! waittid) ++ [task]]>
             (exit_waiting s)) s)
  else (false, s).

(** [taskmap.get(tid, None)] *)
Definition taskmap_get (s : Scheduler) (tid : nat) : option nat :=
  if decide (tid ∈ taskmap s) then Some tid else None.

(** [Scheduler.kill_task] *)
Definition kill_task (tid : nat) (s : Scheduler) : bool * Scheduler :=
  match taskmap_get s tid with
  | Some k => (true, close k s)
  | None => (false, s)
  end.

Definition pause_task (task : option nat) (s : Scheduler) : bool * Scheduler :=
  match task with
  | None => (false, s)
  | Some t =>
      if decide (t ∈ paused_in_ready s ∨ t ∈ paused_in_syscall s)
      then (false, s)
      else match list_remove t (ready s) with
           | Some r =>
               (true, set_paused (paused_in_syscall s)
                        ({[t]} ∪ paused_in_ready s) (set_ready r s))
           | None =>
               (true, set_paused ({[t]} ∪ paused_in_syscall s)
                        (paused_in_ready s) s)
           end
  end.

Definition resume_task (task : option nat) (s : Scheduler) : bool * Scheduler :=
  match task with
  | None => (false, s)
  | Some t =>
      if decide (t ∈ paused_in_ready s)
      then (true, set_ready (t :: ready s)
                    (set_paused (paused_in_syscall s)
                       (paused_in_ready s ∖ {[t]}) s))
      else if decide (t ∈ paused_in_syscall s)
      then (true, set_paused (paused_in_syscall s ∖ {[t]})
                    (paused_in_ready s) s)
      else (false, s)
  end.

(** ** TimerScheduler *)

Definition set_timer_callback (t : Z) (f : callback) (s : Scheduler)
    : Scheduler :=
  set_timers (heappush (timer_cb s) (t, timer_counter s, f))
    (S (timer_counter s)) s.

Definition current_time (s : Scheduler) : Z := clock s.

Definition sleep (d : Z) (s : Scheduler) : Scheduler :=
  set_clock (clock s + d) s.

Definition wait_duration (task : nat) (d : Z) (s : Scheduler) : Scheduler :=
  set_timer_callback (current_time s + d) (Resume task) s.

Definition wait_duration_rate (task : nat) (d : Z) (rate : nat)
    (s : Scheduler) : Scheduler :=
  set_timer_callback (current_time s + d) (ResumeRate task rate) s.

(** Calling a timer closure. *)
Definition fire (f : callback) (s : Scheduler) : Scheduler :=
  match f with
  | Resume task => schedule_now task s
  | ResumeRate task rate =>
      schedule_now task
        (set_rates (alter (λ r, mkRate (duration r) (current_time s)) rate
                      (rates s)) s)
  end.

(** ** Conditions *)

Definition _add_condition (e : condition * nat) (s : Scheduler) : Scheduler :=
  set_cond_waiting
    (foldl (λ m var, <[var := default [] (m !! var) ++ [e]]> m)
       (cond_waiting s) (co_names e.1)) s.

Definition del_from (cand : condition * nat)
    (m : gmap string (list (condition * nat))) (var : string)
    : result (gmap string (list (condition * nat))) :=
  match m !! var with
  | None => Ok m
  | Some l =>
      match list_remove cand l with
      | None => Raise ValueError
      | Some [] => Ok (delete var m)
      | Some l' => Ok (<[var := l']> m)
      end
  end.

Fixpoint foldlM {A B} (f : A → B → result A) (a : A) (l : list B) : result A :=
  match l with
  | [] => Ok a
  | b :: l' => a' <- f a b ;; foldlM f a' l'
  end.

Definition _del_condition (cand : condition * nat) (s : Scheduler)
    : result Scheduler :=
  m <- foldlM (del_from cand) (cond_waiting s) (co_names cand.1) ;;
  Ok (set_cond_waiting m s).

Definition wait_condition (task : nat) (c : condition) (s : Scheduler)
    : Scheduler :=
  if call c (cvars s) then schedule_now task s
  else _add_condition (c, task) s.

(** The test of [test_conditions] on a candidate: its task is not paused
    while parked and its condition holds. *)
Definition wakes (s : Scheduler) (cand : condition * nat) : bool :=
  bool_decide (cand.2 ∉ paused_in_syscall s) && call cand.1 (cvars s).

Definition test_candidate (s : Scheduler) (cand : condition * nat)
    : result Scheduler :=
  if wakes s cand
  then _del_condition cand (schedule cand.2 s)
  else Ok s.

Definition test_conditions (name : string) (s : Scheduler) : result Scheduler :=
  match cond_waiting s !! name with
  | None => Ok s
  | Some candidates => foldlM test_candidate s candidates
  end.

(** [ConditionVariable.__set__]: store the value, then test the
    conditions waiting on the variable's name. *)
Definition cv_set (name : string) (val : Z) (s : Scheduler) : result Scheduler :=
  test_conditions name (set_cvars (<[name := val]> (cvars s)) s).

(** ** Rate *)

Definition Rate_sleep (rate : nat) (task : nat) (s : Scheduler)
    : result (Z * Scheduler) :=
  match rates s !! rate with
  | None => Raise AttributeError
  | Some r =>
      let cur_time := current_time s in
      let delta_time := duration r - (cur_time - last_time r) in
      if 0 <? delta_time
      then Ok (delta_time, wait_duration_rate task delta_time rate s)
      else Ok (delta_time, schedule task s)
  end.

(** ** System calls: the [handle] methods

    [handle sc t s] is [sc.handle()] with [sc.task] the task [t] that
    yielded the request and [sc.sched] the scheduler [s]. *)

Definition kill_each (tids : list nat) (s : Scheduler) : list nat * Scheduler :=
  foldl (λ acc tid,
           if decide (tid ∈ taskmap acc.2)
           then (acc.1 ++ [tid], close tid acc.2) else acc)
    ([], s) tids.

(** The loop over [taskmap.items()]: the order in which a dict yields
    its items is its own; [elements] stands for it, and no statement
    below depends on that order. *)
Definition kill_all_except (except_tids : list nat) (s : Scheduler)
    : list nat * Scheduler :=
  foldl (λ acc tid,
           if decide (tid ∈ except_tids) then acc
           else (acc.1 ++ [tid], close tid acc.2))
    ([], s) (elements (taskmap s)).

Definition pause_each (tids : list nat) (s : Scheduler) : list nat * Scheduler :=
  foldl (λ acc tid,
           let r := pause_task (taskmap_get acc.2 tid) acc.2 in
           (if r.1 then acc.1 ++ [tid] else acc.1, r.2))
    ([], s) tids.

Definition resume_each (tids : list nat) (s : Scheduler) : list nat * Scheduler :=
  foldl (λ acc tid,
           let r := resume_task (taskmap_get acc.2 tid) acc.2 in
           (if r.1 then acc.1 ++ [tid] else acc.1, r.2))
    ([], s) tids.

(** The first loop of [WaitAnyTasks.handle]: the first id that is not in
    the task table, if any. *)
Definition first_missing (tids : list nat) (s : Scheduler) : option nat :=
  snd <$> list_find (λ tid, tid ∉ taskmap s) tids.

(** The loop of [WaitAllTasks.handle]. *)
Definition wait_each (task : nat) (tids : list nat) (s : Scheduler)
    : bool * Scheduler :=
  foldl (λ acc tid,
           let r := wait_for_exit task tid acc.2 in
           (acc.1 || r.1, r.2))
    (false, s) tids.

Definition handle (sc : SystemCall gen condition) (t : nat) (s : Scheduler)
    : result Scheduler :=
  match sc with
  | SysBase => Ok s
  | GetScheduler => Ok (schedule t (set_sendval t VSched s))
  | GetTid => Ok (schedule t (set_sendval t (VTid t) s))
  | GetTids => Ok (schedule t (set_sendval t (VTids (elements (taskmap s))) s))
  | NewTask g =>
      let r := new g s in
      Ok (schedule t (set_sendval t (VTid r.1) r.2))
  | KillTask tid =>
      match taskmap_get s tid with
      | Some k => Ok (schedule t (set_sendval t (VBool true) (close k s)))
      | None => Ok (schedule t (set_sendval t (VBool false) s))
      end
  | KillTasks tids =>
      let r := kill_each tids s in
      Ok (schedule t (set_sendval t (VTids r.1) r.2))
  | KillAllTasksExcept except_tids =>
      let r := kill_all_except except_tids s in
      Ok (schedule t (set_sendval t (VTasks r.1) r.2))
  | WaitTask tid =>
      let r := wait_for_exit t tid s in
      let s1 := set_waitmode t WAIT_ANY (set_sendval t (VBool r.1) r.2) in
      Ok (if r.1 then s1 else schedule t s1)
  | WaitAnyTasks tids =>
      let s1 := set_waitmode t WAIT_ANY s in
      match first_missing tids s1 with
      | None => Ok (foldl (λ a tid, (wait_for_exit t tid a).2) s1 tids)
      | Some non_existing_tid =>
          Ok (schedule t (set_sendval t (VTid non_existing_tid) s1))
      end
  | WaitAllTasks tids =>
      let r := wait_each t tids (set_waitmode t WAIT_ALL s) in
      if r.1 then Ok (set_sendval t (VBool true) r.2)
      else Ok (schedule t (set_sendval t (VBool false) r.2))
  | PauseTask tid =>
      let r := pause_task (taskmap_get s tid) s in
      Ok (schedule t (set_sendval t (VBool r.1) r.2))
  | PauseTasks tids =>
      let r := pause_each tids s in
      Ok (schedule t (set_sendval t (VTids r.1) r.2))
  | ResumeTask tid =>
      let r := resume_task (taskmap_get s tid) s in
      Ok (schedule t (set_sendval t (VBool r.1) r.2))
  | ResumeTasks tids =>
      let r := resume_each tids s in
      Ok (schedule t (set_sendval t (VTids r.1) r.2))
  | GetCurrentTime =>
      Ok (schedule t (set_sendval t (VTime (current_time s)) s))
  | WaitDuration d => Ok (set_sendval t VNone (wait_duration t d s))
  | WaitCondition c => Ok (set_sendval t VNone (wait_condition t c s))
  | CreateRate d =>
      let r := fresh (dom (rates s)) in
      Ok (schedule t (set_sendval t (VRate r)
            (set_rates (<[r := mkRate d (current_time s)]> (rates s)) s)))
  | Sleep rate =>
      r <- Rate_sleep rate t s ;;
      Ok (set_sendval t (VTime r.1) r.2)
  | TeerPrint _ => Ok (schedule t s)
  end.

(** ** The trampoline *)

(** The body of the loop of [step], after [task = self.ready.popleft()]. *)
Definition run_task (t : nat) (s : Scheduler) : result Scheduler :=
  match task_target s t with
  | None => exit t s
  | Some g =>
      match send g (task_sendval s t) with
      | StopIteration => exit t (set_target t None s)
      | BodyFault => Raise BodyError
      | Yield None g' => Ok (schedule t (set_target t (Some g') s))
      | Yield (Some sc) g' => handle sc t (set_target t (Some g') s)
      end
  end.

(** One turn of the loop of [step]; [None] when the ready queue is empty. *)
Definition step_iter (s : Scheduler) : option (result Scheduler) :=
  match ready s with
  | [] => None
  | t :: r => Some (run_task t (set_ready r s))
  end.

Fixpoint step (fuel : nat) (s : Scheduler) : result Scheduler :=
  match step_iter s with
  | None => Ok s
  | Some r =>
      match fuel with
      | O => OutOfFuel
      | S n => s' <- r ;; step n s'
      end
  end.

(** The first [n] turns of the loop of [step] (fewer when the ready queue
    empties before). *)
Fixpoint steps (n : nat) (s : Scheduler) : result Scheduler :=
  match n with
  | O => Ok s
  | S n' =>
      match step_iter s with
      | None => Ok s
      | Some r => s' <- r ;; steps n' s'
      end
  end.

(** ** The loops of TimerScheduler *)

Definition run_pending (s : Scheduler) : bool :=
  negb (bool_decide (timer_cb s = [])) || negb (bool_decide (ready s = []))
  || negb (bool_decide (cond_waiting s = ∅)).

(** The middle of the loop of [run]: pop the earliest timer, sleep until
    its deadline when that is not in the past, call it. *)
Definition fire_next (s : Scheduler) : result Scheduler :=
  match heappop (timer_cb s) with
  | None => Raise IndexError
  | Some (e, rest) =>
      let s2 := set_timers rest (timer_counter s) s in
      let d := entry_time e - current_time s2 in
      let s3 := if 0 <=? d then sleep d s2 else s2 in
      Ok (fire (entry_cb e) s3)
  end.

(** The body of the loop of [run]; [sf] bounds each call of [step]. *)
Definition run_iter (sf : nat) (s : Scheduler) : result Scheduler :=
  s1 <- step sf s ;;
  s2 <- fire_next s1 ;;
  step sf s2.

Fixpoint run (sf fuel : nat) (s : Scheduler) : result Scheduler :=
  if run_pending s then
    match fuel with
    | O => OutOfFuel
    | S n => s' <- run_iter sf s ;; run sf n s'
    end
  else Ok s.

(** The loop of [timer_step]. *)
Fixpoint fire_due (n : nat) (s : Scheduler) : result Scheduler :=
  match heappop (timer_cb s) with
  | None => Ok s
  | Some (e, rest) =>
      let s1 := set_timers rest (timer_counter s) s in
      if entry_time e - current_time s1 <=? 0 then
        match n with
        | O => OutOfFuel
        | S n' => fire_due n' (fire (entry_cb e) s1)
        end
      else Ok (set_timers (heappush rest e) (timer_counter s1) s1)
  end.

Definition timer_step (sf : nat) (s : Scheduler) : result Scheduler :=
  s1 <- fire_due (length (timer_cb s)) s ;; step sf s1.

(** What [_del_condition] leaves under a name it visits. *)
Definition del_lookup (cand : condition * nat)
    (o : option (list (condition * nat))) : option (list (condition * nat)) :=
  match o with
  | None => None
  | Some l =>
      match list_remove cand l with
      | Some [] => None
      | Some l' => Some l'
      | None => Some l
      end
  end.

(** ** What the scheduler holds about one task *)

(** Number of occurrences of a task in a list of tasks. *)
Definition occ (t : nat) (l : list nat) : nat :=
  length (filter (λ u, u = t) l).

(** How many times [t] is registered as waiting for the exit of [k]. *)
Definition nreg (t : nat) (s : Scheduler) (k : nat) : nat :=
  occ t (default [] (exit_waiting s !! k)).

(** [s] and [s'] agree on everything that concerns the task [t]: its
    entries in the ready queue, its object, its pause state and its
    registrations in the exit-wait registry. *)
Definition same_for (t : nat) (s s' : Scheduler) : Prop :=
  occ t (ready s') = occ t (ready s) ∧
  tasks s' !! t = tasks s !! t ∧
  (t ∈ paused_in_syscall s' ↔ t ∈ paused_in_syscall s) ∧
  (t ∈ paused_in_ready s' ↔ t ∈ paused_in_ready s) ∧
  ∀ k, nreg t s' k = nreg t s k.

(** [s] without the registrations for the exit of [x]. *)
Definition unregister (x : nat) (s : Scheduler) : Scheduler :=
  set_exit_waiting (delete x (exit_waiting s)) s.

(** [close()] on each task of a list. *)
Definition close_all (ks : list nat) (s : Scheduler) : Scheduler :=
  foldl (λ a k, close k a) s ks.

(** The tasks a kill request closes ([None] for the other requests). *)
Definition kill_targets (sc : SystemCall gen condition) (s : Scheduler)
    : option (list nat) :=
  match sc with
  | KillTask tid => Some (filter (λ k, k ∈ taskmap s) [tid])
  | KillTasks tids => Some (filter (λ k, k ∈ taskmap s) tids)
  | KillAllTasksExcept except_tids =>
      Some (filter (λ k, k ∉ except_tids) (elements (taskmap s)))
  | _ => None
  end.

(** No wakeup can reach the task [t]: it is neither in the ready queue
    nor paused-while-ready, no timer callback and no condition entry
    names it, it is registered for no exit but its own, and its id is not
    one that a new task can get. *)
Definition no_wakeup_for (t : nat) (s : Scheduler) : Prop :=
  (t ∉ ready s) ∧
  (t ∉ paused_in_ready s) ∧
  (t ≤ taskid s)%nat ∧
  t ∈ taskmap s ∧
  Forall (λ e, cb_task (entry_cb e) ≠ t) (timer_cb s) ∧
  map_Forall (λ _ l, Forall (λ e : condition * nat, e.2 ≠ t) l)
    (cond_waiting s) ∧
  map_Forall (λ k l, t ∈ l → k = t) (exit_waiting s).

(** ** Well-formed registries *)

(** Every entry of the timer heap got its sequence number from the
    counter, which has moved on since. *)
Definition timers_wf (s : Scheduler) : Prop :=
  Forall (λ e, (entry_seq e < timer_counter s)%nat) (timer_cb s).

(** The condition registry as [_add_condition] builds it: an entry is
    listed once under each of the names of its condition, and the names
    of a code object are distinct. *)
Definition cond_wf (m : gmap string (list (condition * nat))) : Prop :=
  ∀ v l, m !! v = Some l →
    NoDup l ∧
    ∀ e, e ∈ l →
      v ∈ co_names e.1 ∧ NoDup (co_names e.1) ∧
      ∀ v', v' ∈ co_names e.1 → ∃ l', m !! v' = Some l' ∧ e ∈ l'.


(** The tasks of [xs] exit one after the other. *)
Definition exits (xs : list nat) (s : Scheduler) : result Scheduler :=
  foldlM (λ a x, exit x a) s xs.

(** ** Calls from outside

    What the program around the scheduler does with it: create a task,
    kill one, run one turn of the loop of [step] or all of it, pop and call the
    next timer, [run], [timer_step], assign a condition variable, let
    time pass. *)
Inductive op :=
| OpNew (g : gen)
| OpKill (tid : nat)
| OpIter
| OpStep (fuel : nat)
| OpFire
| OpRun (sf fuel : nat)
| OpTimerStep (sf : nat)
| OpSet (name : string) (val : Z)
| OpTick (d : Z).

Definition do_op (s : Scheduler) (o : op) : result Scheduler :=
  match o with
  | OpNew g => Ok (new g s).2
  | OpKill tid => Ok (kill_task tid s).2
  | OpIter => match step_iter s with None => Ok s | Some r => r end
  | OpStep fuel => step fuel s
  | OpFire => fire_next s
  | OpRun sf fuel => run sf fuel s
  | OpTimerStep sf => timer_step sf s
  | OpSet name val => cv_set name val s
  | OpTick d => Ok (sleep d s)
  end.

Definition exec (ops : list op) (s : Scheduler) : result Scheduler :=
  foldlM do_op s ops.

End Model.

(** ** A concrete host for the examples

    Generators are scripts: the list of what the body yields, one item
    per resumption (a request, or [None] for a plain [yield]); predicates
    compare one condition variable of the scheduler with a constant, like
    [lambda: sched.energy_level < 10] of test_conditions.py, whose
    [co_names] are [sched] and the variable. *)
Module Script.

Inductive excond :=
| VarGt (v : string) (z : Z)
| VarLt (v : string) (z : Z).

Global Instance excond_eq_dec : EqDecision excond.
Proof. solve_decision. Defined.

Definition excond_names (c : excond) : list string :=
  match c with
  | VarGt v _ => ["sched"; v]
  | VarLt v _ => ["sched"; v]
  end%string.

Definition excond_call (c : excond) (vars : gmap string Z) : bool :=
  match c with
  | VarGt v z => z <? default 0 (vars !! v)
  | VarLt v z => default 0 (vars !! v) <? z
  end.

#[local] Set Warnings "-register-all".

Inductive script :=
| Body (ys : list (option (SystemCall script excond))).

Definition script_send (g : script) (v : value) : sendres script excond :=
  match g with
  | Body [] => StopIteration
  | Body (y :: ys) => Yield y (Body ys)
  end.

Global Instance host : Host := {|
  gen := script;
  condition := excond;
  co_names := excond_names;
  call := excond_call;
  send := script_send;
|}.

Definition init : Scheduler := Scheduler_init 0 ∅.

(** The state reached from [init] by a sequence of calls ([init] again
    if a call raises). *)
Definition after (ops : list op) : Scheduler :=
  match exec ops init with
  | Ok s => s
  | _ => init
  end.

(** One task parked on a condition that does not hold. *)
Definition cond_parked : Scheduler :=
  after [OpNew (Body [Some (WaitCondition (VarGt "x" 2))]); OpStep 5].


(** Task 1 waits for all of [2; 2], task 3 pauses task 1, and task 2 is
    about to run for the last time. *)
Definition paused_twice : Scheduler :=
  after [OpNew (Body [Some (WaitAllTasks [2; 2]%nat); None]);
         OpNew (Body [None]);
         OpNew (Body [Some (PauseTask 1); None; None]);
         OpIter; OpIter; OpIter].

(** Task 1 waits for task 2, task 3 pauses task 1, and task 2 is about to
    run for the last time. *)
Definition paused_waiting : Scheduler :=
  after [OpNew (Body [Some (WaitTask 2); None]);
         OpNew (Body [None]);
         OpNew (Body [Some (PauseTask 1); None; None]);
         OpIter; OpIter; OpIter].

(** Task 1 waits for task 3, task 2 has just killed task 3, which is at
    the front of the ready queue. *)
Definition killed_ready : Scheduler :=
  after [OpNew (Body [Some (WaitTask 3); None]);
         OpNew (Body [Some (KillTask 3); None; None]);
         OpNew (Body [None; None; None]);
         OpIter; OpIter].

(** Task 1 is parked on a condition; task 2 has killed every task but
    itself and then asked for the list of ids. *)
Definition killed_parked : Scheduler :=
  after [OpNew (Body [Some (WaitCondition (VarGt "x" 2)); None]);
         OpNew (Body [Some (KillAllTasksExcept [2%nat]); Some GetTids; None]);
         OpIter; OpIter; OpIter].

(** Tasks 1 and 2 have run once; task 3, at the front of the ready queue,
    is about to run and to kill every task but itself. *)
Definition three_queued : Scheduler :=
  after [OpNew (Body [None; None; None]);
         OpNew (Body [None; None; None]);
         OpNew (Body [Some (KillAllTasksExcept [3%nat]); Some GetTids]);
         OpIter; OpIter].

(** The state that [step] hands to the request of task 3: task 3 has been
    taken from the ready queue and its body has run up to the [yield]. *)
Definition three_ready : Scheduler :=
  set_target 3 (Some (Body [Some GetTids]))
    (set_ready [1; 2]%nat three_queued).

(** Task 1 sleeps on a timer and task 2 has run once; task 3, at the
    front of the ready queue, is about to run and to kill every task but
    task 1. *)
Definition sleeper_queued : Scheduler :=
  after [OpNew (Body [Some (WaitDuration 5); Some GetTids]);
         OpNew (Body [None; None; None]);
         OpNew (Body [Some (KillAllTasksExcept [1%nat]); None]);
         OpIter; OpIter].

(** The state that [step] hands to the request of task 3. *)
Definition sleeper_excepted : Scheduler :=
  set_target 3 (Some (Body [None]))
    (set_ready [2%nat] sleeper_queued).

(** Three tasks have been created; task 1 has been taken from the ready
    queue and is about to issue its first request. *)
Definition first_running : Scheduler :=
  set_ready [2; 3]%nat
    (after [OpNew (Body [None; None]);
            OpNew (Body [None; None]);
            OpNew (Body [None; None])]).

(** Tasks 1 and 2 sleep for 5 ticks, task 3 for 9; 6 ticks have gone. *)
Definition three_timers : Scheduler :=
  after [OpNew (Body [Some (WaitDuration 5); None]);
         OpNew (Body [Some (WaitDuration 5); None]);
         OpNew (Body [Some (WaitDuration 9); None]);
         OpStep 5; OpTick 6].

(** Task 1 creates a rate of period 10 at time 0 and sleeps on it at time
    25, while task 2 is ready. *)
Definition rate_late : Scheduler :=
  after [OpNew (Body [Some (CreateRate 10); Some (Sleep 0)]);
         OpNew (Body [None; None; None]);
         OpIter; OpTick 25; OpIter].

End Script.

(** Decidable facts about the example states are settled by evaluation. *)
Ltac by_compute := apply (bool_decide_unpack _); vm_compute; exact I.


(** * Properties *)

(** ** The timer heap *)

Lemma entry_le_spec a b : entry_le a b = true ↔ entry_leq a b.
Proof.
  unfold entry_le, entry_leq.
  rewrite orb_true_iff, andb_true_iff, Z.ltb_lt, Z.eqb_eq, Nat.leb_le. done.
Qed.

Lemma entry_le_false a b : entry_le a b = false → entry_leq b a.
Proof.
  intros Hf. destruct (entry_le a b) eqn:E; [done|]. clear Hf.
  assert (¬ entry_leq a b) as Hn by (rewrite <- entry_le_spec; congruence).
  unfold entry_leq in *. lia.
Qed.

Lemma entry_leq_trans a b c : entry_leq a b → entry_leq b c → entry_leq a c.
Proof. unfold entry_leq. lia. Qed.

Lemma entry_leq_refl a : entry_leq a a.
Proof. unfold entry_leq. lia. Qed.

Lemma heappop_None l : heappop l = None ↔ l = [].
Proof.
  split; [|by intros ->]. destruct l as [|e l]; [done|]. simpl.
  destruct (heappop l) as [[m r]|]; [|done]. by destruct (entry_le e m).
Qed.

(** [heappop] takes a least entry out of the heap. *)
Lemma heappop_spec l m r :
  heappop l = Some (m, r) → l ≡ₚ m :: r ∧ Forall (entry_leq m) r.
Proof.
  revert m r. induction l as [|e l IH]; intros m r Hp; [done|].
  simpl in Hp. destruct (heappop l) as [[m' r']|] eqn:E.
  - destruct (IH m' r' eq_refl) as [Hperm Hle].
    destruct (entry_le e m') eqn:Hem.
    + injection Hp as <- <-. split; [done|].
      apply entry_le_spec in Hem. rewrite Hperm. constructor; [done|].
      eapply Forall_impl; [exact Hle|]. intros x Hx.
      by eapply entry_leq_trans.
    + injection Hp as <- <-. split.
      * rewrite Hperm. apply Permutation_swap.
      * constructor; [by apply entry_le_false|done].
  - apply heappop_None in E as ->. injection Hp as <- <-. done.
Qed.

Section Proofs.
Context `{Host}.
Implicit Types (s : Scheduler) (t x w : nat).

(** ** The loop of [run] *)

Lemma step_empty fuel s : ready s = [] → step fuel s = Ok s.
Proof.
  intros Hr. destruct fuel; simpl; unfold step_iter; by rewrite Hr.
Qed.

Lemma run_pending_false s :
  run_pending s = false ↔
  timer_cb s = [] ∧ ready s = [] ∧ cond_waiting s = ∅.
Proof.
  unfold run_pending.
  rewrite !orb_false_iff, !negb_false_iff, !bool_decide_eq_true.
  tauto.
Qed.

(** When [run] returns, the three sources are empty. *)
Lemma run_Ok_empty sf fuel s s' :
  run sf fuel s = Ok s' →
  timer_cb s' = [] ∧ ready s' = [] ∧ cond_waiting s' = ∅.
Proof.
  revert s. induction fuel as [|n IH]; intros s; simpl.
  - destruct (run_pending s) eqn:Hp; [done|].
    intros [= <-]. by apply run_pending_false.
  - destruct (run_pending s) eqn:Hp.
    + destruct (run_iter sf s) as [s1| |]; simpl; [apply IH|done|done].
    + intros [= <-]. by apply run_pending_false.
Qed.

(** C2: [run] entered with an empty ready queue, no timer and some task
    waiting on a condition does not complete its turn of the loop: the
    condition waiters keep the loop going, [step] has nothing to run, and
    [heappop] on the empty timer heap raises [IndexError]. *)
Theorem run_no_timer_IndexError sf fuel s :
  ready s = [] →
  timer_cb s = [] →
  cond_waiting s ≠ ∅ →
  run sf (S fuel) s = Raise IndexError.
Proof.
  intros Hr Ht Hc. simpl.
  assert (run_pending s = true) as ->.
  { destruct (run_pending s) eqn:Hp; [done|].
    apply run_pending_false in Hp. by destruct Hp as (_ & _ & ?). }
  unfold run_iter. rewrite (step_empty _ _ Hr). simpl.
  unfold fire_next. by rewrite Ht.
Qed.

(** ** Field lemmas for the primitives *)

Lemma schedule_unpaused t s :
  t ∉ paused_in_syscall s → schedule t s = set_ready (ready s ++ [t]) s.
Proof. intros. unfold schedule. by case_decide. Qed.

Lemma schedule_paused t s :
  t ∈ paused_in_syscall s →
  schedule t s =
  set_paused (paused_in_syscall s ∖ {[t]}) ({[t]} ∪ paused_in_ready s) s.
Proof. intros. unfold schedule. by case_decide. Qed.

Lemma schedule_now_unpaused t s :
  t ∉ paused_in_syscall s → schedule_now t s = set_ready (t :: ready s) s.
Proof. intros. unfold schedule_now. by case_decide. Qed.

Lemma schedule_now_paused t s :
  t ∈ paused_in_syscall s →
  schedule_now t s =
  set_paused (paused_in_syscall s ∖ {[t]}) ({[t]} ∪ paused_in_ready s) s.
Proof. intros. unfold schedule_now. by case_decide. Qed.

(** ** Rate.sleep *)

(** C7 (as the code has it): [Rate.sleep] returns
    [period - (now - last_wake)]; when that is positive it pushes a timer
    for [now + remaining] whose callback sets [last_time] to the time of
    firing and wakes the task at the front of the ready queue; otherwise
    it reschedules the task with the plain [schedule], at the back of the
    ready queue. *)
Theorem Rate_sleep_spec s rate task r :
  rates s !! rate = Some r →
  let delta := duration r - (current_time s - last_time r) in
  (delta ≤ 0 →
     Rate_sleep rate task s = Ok (delta, schedule task s) ∧
     handle (Sleep rate) task s
       = Ok (set_sendval task (VTime delta) (schedule task s)) ∧
     timer_cb (schedule task s) = timer_cb s ∧
     (task ∉ paused_in_syscall s →
      ready (schedule task s) = ready s ++ [task])) ∧
  (0 < delta →
     ∃ s', Rate_sleep rate task s = Ok (delta, s') ∧
       handle (Sleep rate) task s = Ok (set_sendval task (VTime delta) s') ∧
       ready s' = ready s ∧
       timer_cb s' =
         (current_time s + delta, timer_counter s, ResumeRate task rate)
           :: timer_cb s ∧
       ∀ s2 r2, rates s2 !! rate = Some r2 →
         let s3 := fire (ResumeRate task rate) s2 in
         rates s3 !! rate = Some (mkRate (duration r2) (current_time s2)) ∧
         (task ∉ paused_in_syscall s2 → ready s3 = task :: ready s2)).
Proof.
  intros Hr delta. split; intros Hd.
  - assert (Rate_sleep rate task s = Ok (delta, schedule task s)) as Hs.
    { unfold Rate_sleep. rewrite Hr. fold delta.
      destruct (0 <? delta) eqn:E; [apply Z.ltb_lt in E; lia|done]. }
    split_and!; [done| |..].
    + unfold handle. by rewrite Hs.
    + unfold schedule. by case_decide.
    + intros Hp. by rewrite schedule_unpaused.
  - exists (wait_duration_rate task delta rate s).
    assert (Rate_sleep rate task s
            = Ok (delta, wait_duration_rate task delta rate s)) as Hs.
    { unfold Rate_sleep. rewrite Hr. fold delta.
      destruct (0 <? delta) eqn:E; [done|apply Z.ltb_ge in E; lia]. }
    split_and!; [done| |done|done|].
    + unfold handle. by rewrite Hs.
    + intros s2 r2 Hr2 s3. subst s3. split.
      * unfold fire, schedule_now. case_decide; simpl;
          by rewrite lookup_alter_eq, Hr2.
      * intros Hp. unfold fire. by rewrite schedule_now_unpaused.
Qed.

(** ** Lists: [remove] *)

Lemma list_remove_Some {A} `{EqDecision A} (x : A) l :
  x ∈ l → ∃ l', list_remove x l = Some l'.
Proof.
  induction l as [|y l IH]; intros Hin; [by apply elem_of_nil in Hin|].
  simpl. case_decide; [eauto|].
  apply elem_of_cons in Hin as [->|Hin]; [done|].
  destruct (IH Hin) as [l' ->]. eauto.
Qed.

Lemma list_remove_None {A} `{EqDecision A} (x : A) l :
  x ∉ l → list_remove x l = None.
Proof.
  induction l as [|y l IH]; intros Hin; [done|].
  simpl. apply not_elem_of_cons in Hin as [? ?].
  case_decide; [congruence|]. by rewrite IH.
Qed.

Lemma list_remove_elem_of {A} `{EqDecision A} (x : A) l l' :
  list_remove x l = Some l' → ∀ y, y ≠ x → y ∈ l' ↔ y ∈ l.
Proof.
  revert l'. induction l as [|z l IH]; intros l' Hr y Hy; [done|].
  simpl in Hr. case_decide.
  - injection Hr as <-. subst z. rewrite elem_of_cons.
    split; [auto|]. by intros [->|?].
  - destruct (list_remove x l) as [r|] eqn:E; [|done].
    injection Hr as <-. rewrite !elem_of_cons, (IH r eq_refl y Hy). done.
Qed.

Lemma list_remove_sub {A} `{EqDecision A} (x : A) l l' :
  list_remove x l = Some l' → ∀ y, y ∈ l' → y ∈ l.
Proof.
  revert l'. induction l as [|z l IH]; intros l' Hr y Hy; [done|].
  simpl in Hr. case_decide.
  - injection Hr as <-. by apply elem_of_cons; right.
  - destruct (list_remove x l) as [r|] eqn:E; [|done].
    injection Hr as <-. apply elem_of_cons in Hy as [->|Hy].
    + apply elem_of_cons; by left.
    + apply elem_of_cons; right. by apply (IH r).
Qed.

Lemma list_remove_NoDup {A} `{EqDecision A} (x : A) l l' :
  list_remove x l = Some l' → NoDup l → NoDup l' ∧ x ∉ l'.
Proof.
  revert l'. induction l as [|z l IH]; intros l' Hr Hnd; [done|].
  apply NoDup_cons in Hnd as [Hz Hnd].
  simpl in Hr. case_decide.
  - injection Hr as <-. by subst z.
  - destruct (list_remove x l) as [r|] eqn:E; [|done].
    injection Hr as <-. destruct (IH r eq_refl Hnd) as [Hr1 Hr2].
    split.
    + apply NoDup_cons. split; [|done].
      intros Hin. apply Hz. by eapply list_remove_sub.
    + apply not_elem_of_cons. by split.
Qed.

(** ** The condition registry *)

Lemma foldlM_cons {A B} (f : A → B → result A) a b l :
  foldlM f a (b :: l) = (a' <- f a b ;; foldlM f a' l).
Proof. done. Qed.

Lemma foldlM_app {A B} (f : A → B → result A) a l1 l2 :
  foldlM f a (l1 ++ l2) = (a' <- foldlM f a l1 ;; foldlM f a' l2).
Proof.
  revert a. induction l1 as [|b l1 IH]; intros a; simpl; [done|].
  destruct (f a b); simpl; [apply IH|done|done].
Qed.

Lemma del_from_lookup cand m v l :
  m !! v = Some l → cand ∈ l →
  ∃ m', del_from cand m v = Ok m' ∧
        ∀ v', m' !! v' = if decide (v' = v) then del_lookup cand (m !! v')
                         else m !! v'.
Proof.
  intros Hm Hin. unfold del_from. rewrite Hm.
  destruct (list_remove_Some cand l Hin) as [l' Hl']. rewrite Hl'.
  destruct l' as [|c l'].
  - eexists. split; [done|]. intros v'. case_decide as Hv.
    + subst v'. rewrite lookup_delete_eq, Hm. simpl. by rewrite Hl'.
    + by rewrite lookup_delete_ne.
  - eexists. split; [done|]. intros v'. case_decide as Hv.
    + subst v'. rewrite lookup_insert_eq, Hm. simpl. by rewrite Hl'.
    + by rewrite lookup_insert_ne.
Qed.

Lemma del_fold_lookup cand vs m :
  NoDup vs →
  (∀ v, v ∈ vs → ∃ l, m !! v = Some l ∧ cand ∈ l) →
  ∃ m', foldlM (del_from cand) m vs = Ok m' ∧
        ∀ v, m' !! v = if decide (v ∈ vs) then del_lookup cand (m !! v)
                       else m !! v.
Proof.
  revert m. induction vs as [|v vs IH]; intros m Hnd Hreg.
  - exists m. split; [done|]. intros v. case_decide as Hv; [|done].
    by apply elem_of_nil in Hv.
  - apply NoDup_cons in Hnd as [Hv Hnd].
    destruct (Hreg v) as (l & Hl & Hin); [by left|].
    destruct (del_from_lookup cand m v l Hl Hin) as (m1 & Hm1 & Hlk1).
    destruct (IH m1 Hnd) as (m' & Hm' & Hlk').
    { intros v' Hv'. destruct (Hreg v') as (l' & Hl' & Hin'); [by right|].
      exists l'. split; [|done]. rewrite Hlk1.
      case_decide as E; [subst v'; done|done]. }
    exists m'. split; [simpl; by rewrite Hm1|].
    intros v'. rewrite Hlk', Hlk1.
    destruct (decide (v' = v)) as [->|Hne].
    + rewrite (decide_False (P := v ∈ vs)) by done.
      rewrite (decide_True (P := v ∈ v :: vs)) by (by left). done.
    + destruct (decide (v' ∈ vs)) as [Hi|Hi].
      * rewrite (decide_True (P := v' ∈ v :: vs)) by (by right). done.
      * rewrite (decide_False (P := v' ∈ v :: vs)); [done|].
        by apply not_elem_of_cons.
Qed.

Lemma del_lookup_elem_of cand o l' e :
  (∀ l, o = Some l → NoDup l) →
  del_lookup cand o = Some l' →
  e ∈ l' ↔ ∃ l, o = Some l ∧ e ∈ l ∧ e ≠ cand.
Proof.
  intros Hnd. destruct o as [l|]; simpl; [|done].
  specialize (Hnd l eq_refl).
  destruct (list_remove cand l) as [r|] eqn:E.
  - destruct (list_remove_NoDup _ _ _ E Hnd) as [_ Hni].
    destruct r as [|c r]; [done|]. intros [= <-]. split.
    + intros He. exists l.
      assert (e ≠ cand) by (intros ->; done).
      split; [done|]. split; [|done]. by eapply list_remove_sub.
    + intros (? & [= <-] & He & Hne). by eapply list_remove_elem_of.
  - intros [= <-]. split.
    + intros He. exists l. split; [done|]. split; [done|].
      intros ->. apply list_remove_Some in He as [? ?]. congruence.
    + by intros (? & [= <-] & He & _).
Qed.

Lemma del_lookup_NoDup cand o l' :
  (∀ l, o = Some l → NoDup l) → del_lookup cand o = Some l' → NoDup l'.
Proof.
  intros Hnd. destruct o as [l|]; simpl; [|done].
  specialize (Hnd l eq_refl).
  destruct (list_remove cand l) as [r|] eqn:E.
  - destruct (list_remove_NoDup _ _ _ E Hnd) as [Hr _].
    destruct r; [done|]. by intros [= <-].
  - by intros [= <-].
Qed.

Lemma del_lookup_keeps cand o l e :
  o = Some l → NoDup l → e ∈ l → e ≠ cand →
  ∃ l', del_lookup cand o = Some l' ∧ e ∈ l'.
Proof.
  intros -> Hnd He Hne. simpl.
  destruct (list_remove cand l) as [r|] eqn:E.
  - assert (e ∈ r) as Her by (by eapply list_remove_elem_of).
    destruct r as [|c r]; [by apply elem_of_nil in Her|]. eauto.
  - eauto.
Qed.

Lemma del_condition_wf cand s :
  cond_wf (cond_waiting s) →
  (∃ v l, cond_waiting s !! v = Some l ∧ cand ∈ l) →
  ∃ m', _del_condition cand s = Ok (set_cond_waiting m' s) ∧ cond_wf m' ∧
    ∀ v, m' !! v = if decide (v ∈ co_names cand.1)
                   then del_lookup cand (cond_waiting s !! v)
                   else cond_waiting s !! v.
Proof.
  intros Hwf (v0 & l0 & Hl0 & Hin0).
  destruct (Hwf v0 l0 Hl0) as [_ Hreg]. destruct (Hreg cand Hin0) as (_ & Hnd & Hall).
  destruct (del_fold_lookup cand (co_names cand.1) (cond_waiting s) Hnd Hall)
    as (m' & Hm' & Hlk).
  exists m'. split; [unfold _del_condition; by rewrite Hm'|]. split; [|done].
  assert (∀ v l, cond_waiting s !! v = Some l → NoDup l) as Hnds.
  { intros v l Hl. by destruct (Hwf v l Hl). }
  assert (∀ v l' e, m' !! v = Some l' → e ∈ l' →
            ∃ l, cond_waiting s !! v = Some l ∧ e ∈ l ∧ e ≠ cand) as Hback.
  { intros v l' e Hl' He. rewrite Hlk in Hl'. case_decide as Hv.
    - by apply (del_lookup_elem_of cand _ l' e (Hnds v)).
    - exists l'. split; [done|]. split; [done|]. intros ->.
      destruct (Hwf v l' Hl') as [_ Hr']. by destruct (Hr' cand He). }
  intros v l' Hl'. split.
  - rewrite Hlk in Hl'. case_decide.
    + eapply del_lookup_NoDup; [apply (Hnds v)|done].
    + by eapply Hnds.
  - intros e He. destruct (Hback v l' e Hl' He) as (l & Hl & Hel & Hne).
    destruct (Hwf v l Hl) as [_ Hr]. destruct (Hr e Hel) as (Hv & Hnde & Halle).
    split; [done|]. split; [done|]. intros v' Hv'.
    destruct (Halle v' Hv') as (l1 & Hl1 & Hel1).
    rewrite Hlk. case_decide.
    + eapply del_lookup_keeps; eauto.
    + eauto.
Qed.

Lemma test_fold name cands s :
  cond_wf (cond_waiting s) → NoDup cands →
  (∀ c, c ∈ cands → ∃ l, cond_waiting s !! name = Some l ∧ c ∈ l) →
  ∃ m', foldlM test_candidate s cands
        = Ok (set_cond_waiting m'
                (set_ready (ready s ++ (filter (wakes s) cands).*2) s)) ∧
        cond_wf m' ∧
        ∀ v l e, cond_waiting s !! v = Some l → e ∈ l → wakes s e = false →
                 ∃ l', m' !! v = Some l' ∧ e ∈ l'.
Proof.
  revert s. induction cands as [|c cands IH]; intros s Hwf Hnd Hreg.
  - exists (cond_waiting s). simpl. rewrite app_nil_r.
    split; [by destruct s|]. split; [done|]. eauto.
  - apply NoDup_cons in Hnd as [Hc Hnd].
    assert (∀ v l, cond_waiting s !! v = Some l → NoDup l) as Hnds.
    { intros v l Hl. by destruct (Hwf v l Hl). }
    rewrite foldlM_cons, filter_cons.
    destruct (wakes s c) eqn:Hw.
    + rewrite decide_True by done.
      assert (c.2 ∉ paused_in_syscall s) as Hp.
      { unfold wakes in Hw. apply andb_true_iff in Hw as [Hw _].
        by apply bool_decide_eq_true in Hw. }
      set (s0 := set_ready (ready s ++ [c.2]) s).
      assert (test_candidate s c = _del_condition c s0) as ->.
      { unfold test_candidate. by rewrite Hw, schedule_unpaused. }
      destruct (del_condition_wf c s0) as (m1 & Hm1 & Hwf1 & Hlk1); [done| |].
      { destruct (Hreg c) as (l & Hl & Hin); [by left|]. by exists name, l. }
      rewrite Hm1. simpl.
      destruct (IH (set_cond_waiting m1 s0)) as (m' & Hm' & Hwf' & Hkeep);
        [done|done| |].
      { intros c' Hc'. destruct (Hreg c') as (l & Hl & Hin); [by right|].
        simpl. rewrite Hlk1.
        assert (c' ≠ c) by (intros ->; done).
        case_decide; [|eauto]. eapply del_lookup_keeps; eauto. }
      exists m'. split; [|split; [done|]].
      * rewrite Hm'. simpl. by rewrite <- app_assoc.
      * intros v l e Hl He Hwe. assert (e ≠ c) by (intros ->; congruence).
        assert (∃ l1, m1 !! v = Some l1 ∧ e ∈ l1) as (l1 & Hl1 & He1).
        { rewrite Hlk1. simpl. case_decide; [|eauto].
          eapply del_lookup_keeps; eauto. }
        by eapply (Hkeep v l1 e).
    + rewrite decide_False by (by intros []).
      assert (test_candidate s c = Ok s) as ->.
      { unfold test_candidate. by rewrite Hw. }
      simpl. apply IH; [done|done|]. intros c' Hc'. apply Hreg. by right.
Qed.

Lemma test_conditions_total name cands s :
  cond_wf (cond_waiting s) →
  cond_waiting s !! name = Some cands →
  ∃ m', test_conditions name s
        = Ok (set_cond_waiting m'
                (set_ready (ready s ++ (filter (wakes s) cands).*2) s)) ∧
        cond_wf m' ∧
        ∀ v l e, cond_waiting s !! v = Some l → e ∈ l → wakes s e = false →
                 ∃ l', m' !! v = Some l' ∧ e ∈ l'.
Proof.
  intros Hwf Hc. unfold test_conditions. rewrite Hc.
  apply test_fold with (name := name); [done|by destruct (Hwf name cands Hc)|].
  intros c Hin. eauto.
Qed.


(** ** Where a wakeup puts the task *)


(** ** Frame properties: the clock *)

Lemma foldl_inv {A B} (P : A → Prop) (f : A → B → A) l a :
  P a → (∀ a b, P a → P (f a b)) → P (foldl f a l).
Proof.
  intros Ha Hf. revert a Ha. induction l as [|b l IH]; intros a Ha; [done|].
  simpl. apply IH. by apply Hf.
Qed.

Lemma schedule_clock t s : clock (schedule t s) = clock s.
Proof. unfold schedule. by case_decide. Qed.

Lemma schedule_now_clock t s : clock (schedule_now t s) = clock s.
Proof. unfold schedule_now. by case_decide. Qed.

Lemma fire_clock f s : clock (fire f s) = clock s.
Proof. destruct f; simpl; by rewrite schedule_now_clock. Qed.

Lemma notify_clock x s w : clock (notify x s w) = clock s.
Proof.
  unfold notify. destruct (task_waitmode s w).
  - by rewrite schedule_clock.
  - destruct (still_waiting w (exit_waiting s)); [done|].
    by rewrite schedule_clock.
Qed.

Lemma exit_clock x s s' : exit x s = Ok s' → clock s' = clock s.
Proof.
  unfold exit. case_decide; [|done]. intros [= <-]. simpl.
  apply (foldl_inv (λ a, clock a = clock s)); [done|].
  intros a w <-. apply notify_clock.
Qed.

Lemma pause_task_clock o s : clock (pause_task o s).2 = clock s.
Proof.
  unfold pause_task. destruct o as [t|]; [|done].
  case_decide; [done|]. by destruct (list_remove t (ready s)).
Qed.

Lemma resume_task_clock o s : clock (resume_task o s).2 = clock s.
Proof.
  unfold resume_task. destruct o as [t|]; [|done].
  repeat case_decide; done.
Qed.

Lemma wait_for_exit_clock t k s : clock (wait_for_exit t k s).2 = clock s.
Proof. unfold wait_for_exit. by case_decide. Qed.

Lemma wait_condition_clock t c s : clock (wait_condition t c s) = clock s.
Proof.
  unfold wait_condition. destruct (call c (cvars s)); [|done].
  apply schedule_now_clock.
Qed.

Lemma kill_each_clock tids s : clock (kill_each tids s).2 = clock s.
Proof.
  apply (foldl_inv (λ a, clock a.2 = clock s)); [done|].
  intros a k <-. by case_decide.
Qed.

Lemma kill_all_except_clock (ex : list nat) s : clock (kill_all_except ex s).2 = clock s.
Proof.
  apply (foldl_inv (λ a, clock a.2 = clock s)); [done|].
  intros a k <-. by case_decide.
Qed.

Lemma pause_each_clock tids s : clock (pause_each tids s).2 = clock s.
Proof.
  apply (foldl_inv (λ a, clock a.2 = clock s)); [done|].
  intros a k <-. apply pause_task_clock.
Qed.

Lemma resume_each_clock tids s : clock (resume_each tids s).2 = clock s.
Proof.
  apply (foldl_inv (λ a, clock a.2 = clock s)); [done|].
  intros a k <-. apply resume_task_clock.
Qed.

Lemma wait_each_clock t tids s : clock (wait_each t tids s).2 = clock s.
Proof.
  apply (foldl_inv (λ a, clock a.2 = clock s)); [done|].
  intros a k <-. apply wait_for_exit_clock.
Qed.

Lemma wait_all_clock t tids s :
  clock (foldl (λ a tid, (wait_for_exit t tid a).2) s tids) = clock s.
Proof.
  apply (foldl_inv (λ a, clock a = clock s)); [done|].
  intros a k <-. apply wait_for_exit_clock.
Qed.

Lemma new_clock g s : clock (new g s).2 = clock s.
Proof. unfold new. simpl. by rewrite schedule_clock. Qed.

Lemma Rate_sleep_clock rate t s r :
  Rate_sleep rate t s = Ok r → clock r.2 = clock s.
Proof.
  unfold Rate_sleep. destruct (rates s !! rate); [|done].
  case_match; intros [= <-]; simpl; by rewrite ?schedule_clock.
Qed.

Lemma handle_clock sc t s s' : handle sc t s = Ok s' → clock s' = clock s.
Proof.
  destruct sc; unfold handle;
    try (destruct (Rate_sleep rate t s) as [r| |] eqn:E; simpl);
    repeat case_match; intros Hx; simplify_eq;
    rewrite ?schedule_clock; cbn [clock set_sendval set_waitmode set_tasks
      set_rates wait_duration set_timer_callback set_timers];
    rewrite ?new_clock, ?kill_each_clock, ?kill_all_except_clock,
      ?pause_each_clock, ?resume_each_clock, ?wait_each_clock,
      ?wait_all_clock, ?pause_task_clock, ?resume_task_clock,
      ?wait_for_exit_clock, ?wait_condition_clock, ?schedule_clock;
    try done.
  by eapply Rate_sleep_clock.
Qed.

Lemma run_task_clock t s s' : run_task t s = Ok s' → clock s' = clock s.
Proof.
  unfold run_task. destruct (task_target s t) as [g|].
  - destruct (send g _) as [| |[sc|] g'].
    + intros Hx. by apply exit_clock in Hx.
    + done.
    + intros Hx. by apply handle_clock in Hx.
    + intros [= <-]. by rewrite schedule_clock.
  - apply exit_clock.
Qed.

(** [step] does not sleep. *)
Lemma step_clock fuel s s' : step fuel s = Ok s' → clock s' = clock s.
Proof.
  revert s. induction fuel as [|n IH]; intros s; simpl; unfold step_iter.
  - destruct (ready s); [by intros [= <-]|done].
  - destruct (ready s) as [|t r]; [by intros [= <-]|].
    destruct (run_task t (set_ready r s)) as [s1| |] eqn:E; simpl; [|done..].
    intros Hs. apply IH in Hs. apply run_task_clock in E. by rewrite Hs, E.
Qed.

(** ** timer_step *)

Lemma filter_all {A} (P : A → Prop) `{∀ a, Decision (P a)} (l : list A) :
  Forall P l → filter P l = l.
Proof.
  induction 1 as [|a l Hx Hl IH]; [done|].
  by rewrite filter_cons_True, IH.
Qed.

Lemma filter_none {A} (P : A → Prop) `{∀ a, Decision (P a)} (l : list A) :
  Forall (λ a, ¬ P a) l → filter P l = [].
Proof.
  induction 1 as [|a l Hx Hl IH]; [done|].
  by rewrite filter_cons_False, IH.
Qed.

Lemma fire_set_timers f l n s :
  fire f (set_timers l n s) = set_timers l n (fire f s).
Proof.
  destruct f; unfold fire, schedule_now; simpl; by case_decide.
Qed.

Lemma fire_timer_cb f s : timer_cb (fire f s) = timer_cb s.
Proof. destruct f; unfold fire, schedule_now; simpl; by case_decide. Qed.

Lemma fire_timer_counter f s : timer_counter (fire f s) = timer_counter s.
Proof. destruct f; unfold fire, schedule_now; simpl; by case_decide. Qed.

Lemma fire_all_set_timers fired l n s :
  foldl (λ a e, fire (entry_cb e) a) (set_timers l n s) fired
  = set_timers l n (foldl (λ a e, fire (entry_cb e) a) s fired).
Proof.
  revert s. induction fired as [|e fired IH]; intros s; [done|].
  simpl. by rewrite fire_set_timers, IH.
Qed.

Lemma set_timers_same s : set_timers (timer_cb s) (timer_counter s) s = s.
Proof. by destruct s. Qed.

(** The loop of [timer_step] fires, in the order (deadline, sequence), the
    entries whose deadline is not after the current time, and stops at
    the first entry that is. *)
Lemma fire_due_spec n s :
  (length (timer_cb s) ≤ n)%nat →
  ∃ fired s1,
    fire_due n s = Ok s1 ∧
    StronglySorted entry_leq fired ∧
    Forall (λ e, entry_time e ≤ clock s) fired ∧
    Forall (λ e, ¬ entry_time e ≤ clock s) (timer_cb s1) ∧
    timer_cb s ≡ₚ fired ++ timer_cb s1 ∧
    s1 = set_timers (timer_cb s1) (timer_counter s)
           (foldl (λ a e, fire (entry_cb e) a) s fired).
Proof.
  revert s. induction n as [|n IH]; intros s Hlen.
  - destruct (timer_cb s) as [|e l] eqn:Hl; [|simpl in Hlen; lia].
    exists [], s. simpl. rewrite Hl. simpl.
    split_and!; try done; [constructor|].
    by rewrite <- Hl, set_timers_same.
  - simpl. destruct (heappop (timer_cb s)) as [[e rest]|] eqn:Hpop.
    + destruct (heappop_spec _ _ _ Hpop) as [Hperm Hmin].
      unfold current_time. simpl.
      destruct (entry_time e - clock s <=? 0) eqn:Hdue.
      * apply Z.leb_le in Hdue.
        set (s0 := fire (entry_cb e) (set_timers rest (timer_counter s) s)).
        assert (timer_cb s0 = rest) as Hrest.
        { unfold s0. by rewrite fire_timer_cb. }
        assert (clock s0 = clock s) as Hclk.
        { unfold s0. by rewrite fire_clock. }
        destruct (IH s0) as (fired & s1 & Hf & Hsort & Hd & Hnd & Hp & Heq).
        { rewrite Hrest. apply Permutation_length in Hperm.
          simpl in Hperm. lia. }
        exists (e :: fired), s1. rewrite Hclk in Hd, Hnd.
        split_and!; try done.
        -- constructor; [done|].
           rewrite Hrest in Hp. rewrite Hp in Hmin.
           by apply Forall_app in Hmin as [? _].
        -- constructor; [lia|done].
        -- rewrite Hperm, <- Hrest, Hp. done.
        -- rewrite Heq at 1. unfold s0. simpl.
           by rewrite fire_set_timers, fire_all_set_timers.
      * apply Z.leb_gt in Hdue.
        exists [], (set_timers (heappush rest e) (timer_counter s) s).
        split_and!; try done; try (by constructor).
        simpl. unfold heappush. constructor; [lia|].
        eapply Forall_impl; [exact Hmin|]. intros e' He'.
        unfold entry_leq in He'. lia.
    + exists [], s. apply heappop_None in Hpop. rewrite Hpop.
      split_and!; try done; try (by constructor).
      simpl. by rewrite <- Hpop, set_timers_same.
Qed.

(** C8: sequence numbers grow with every insertion, so that an entry
    inserted later with the same deadline comes later in the order
    (deadline, sequence); [heappop] takes the least entry in that order;
    [timer_step] fires exactly the entries whose deadline has passed, in
    that order, keeps the others, then runs [step] once, and the clock is
    the same afterwards. *)
Theorem timers_fire_in_order s sf :
  timers_wf s →
  (∀ (d : Z) f,
     let s' := set_timer_callback d f s in
     timer_cb s' ≡ₚ (d, timer_counter s, f) :: timer_cb s ∧
     timer_counter s' = S (timer_counter s) ∧
     timers_wf s' ∧
     ∀ e, e ∈ timer_cb s → entry_time e = d →
          entry_leq e (d, timer_counter s, f) ∧
          ¬ entry_leq (d, timer_counter s, f) e) ∧
  (∀ m r, heappop (timer_cb s) = Some (m, r) →
          timer_cb s ≡ₚ m :: r ∧ Forall (entry_leq m) r) ∧
  ∃ fired s1,
    fire_due (length (timer_cb s)) s = Ok s1 ∧
    timer_step sf s = step sf s1 ∧
    StronglySorted entry_leq fired ∧
    fired ≡ₚ filter (λ e, entry_time e ≤ clock s) (timer_cb s) ∧
    timer_cb s1 ≡ₚ filter (λ e, ¬ entry_time e ≤ clock s) (timer_cb s) ∧
    s1 = set_timers (timer_cb s1) (timer_counter s)
           (foldl (λ a e, fire (entry_cb e) a) s fired) ∧
    clock s1 = clock s ∧
    ∀ s2, timer_step sf s = Ok s2 → clock s2 = clock s.
Proof.
  intros Hwf. split_and!.
  - intros d f s'. unfold s', set_timer_callback, heappush. simpl.
    split_and!; [done|done| |].
    + unfold timers_wf. simpl. constructor; [unfold entry_seq; simpl; lia|].
      eapply Forall_impl; [exact Hwf|]. simpl. lia.
    + intros e He Ht. unfold timers_wf in Hwf.
      rewrite Forall_forall in Hwf. specialize (Hwf e He).
      unfold entry_leq, entry_time, entry_seq in *. simpl in *. lia.
  - intros m r. apply heappop_spec.
  - destruct (fire_due_spec (length (timer_cb s)) s)
      as (fired & s1 & Hf & Hsort & Hd & Hnd & Hp & Heq); [done|].
    assert (clock s1 = clock s) as Hclk.
    { rewrite Heq. simpl.
      apply (foldl_inv (λ a, clock a = clock s)); [done|].
      intros a e <-. apply fire_clock. }
    exists fired, s1. split_and!; try done.
    + unfold timer_step. by rewrite Hf.
    + rewrite Hp, filter_app, (filter_all _ _ Hd), (filter_none _ _ Hnd).
      by rewrite app_nil_r.
    + rewrite Hp, filter_app, (filter_all _ _ Hnd).
      rewrite (filter_none _ fired); [done|].
      eapply Forall_impl; [exact Hd|]. simpl. tauto.
    + intros s2. unfold timer_step. rewrite Hf. simpl.
      intros Hs. apply step_clock in Hs. by rewrite Hs.
Qed.

(** ** Occurrences *)

Lemma occ_nil t : occ t [] = 0%nat.
Proof. done. Qed.

Lemma occ_cons t u l :
  occ t (u :: l) = ((if decide (u = t) then 1 else 0) + occ t l)%nat.
Proof. unfold occ. rewrite filter_cons. by case_decide. Qed.

Lemma occ_app t l1 l2 : occ t (l1 ++ l2) = (occ t l1 + occ t l2)%nat.
Proof. unfold occ. by rewrite filter_app, length_app. Qed.

Lemma occ_zero t l : occ t l = 0%nat ↔ t ∉ l.
Proof.
  induction l as [|u l IH].
  - split; [intros _; apply not_elem_of_nil|done].
  - rewrite occ_cons, not_elem_of_cons, <- IH. case_decide.
    + split; [lia|]. intros [? _]. congruence.
    + split; [intros; split; [congruence|lia]|intros [_ ?]; lia].
Qed.

Lemma occ_pos t l : (0 < occ t l)%nat ↔ t ∈ l.
Proof.
  destruct (decide (t ∈ l)) as [Hin|Hin].
  - split; [done|]. intros _. destruct (occ t l) eqn:E; [|lia].
    by apply occ_zero in E.
  - split; [|done]. apply occ_zero in Hin. lia.
Qed.

Lemma list_remove_occ_ne w u l l' :
  list_remove w l = Some l' → u ≠ w → occ u l' = occ u l.
Proof.
  revert l'. induction l as [|z l IH]; intros l' Hr Hne; [done|].
  simpl in Hr. case_decide.
  - injection Hr as <-. subst z. rewrite occ_cons.
    by rewrite decide_False by congruence.
  - destruct (list_remove w l) as [r|]; [|done]. injection Hr as <-.
    rewrite !occ_cons. by rewrite (IH r).
Qed.

Lemma list_remove_occ_eq w l l' :
  list_remove w l = Some l' → occ w l = S (occ w l').
Proof.
  revert l'. induction l as [|z l IH]; intros l' Hr; [done|].
  simpl in Hr. case_decide.
  - injection Hr as <-. subst z. rewrite occ_cons.
    by rewrite decide_True.
  - destruct (list_remove w l) as [r|]; [|done]. injection Hr as <-.
    rewrite !occ_cons. rewrite (IH r) by done.
    by rewrite decide_False.
Qed.

(** The removal loop of [exit] only takes occurrences of the watcher it
    looks for. *)
Lemma drop_waiter_loop_occ n i w u l :
  u ≠ w → occ u (drop_waiter_loop n i w l) = occ u l.
Proof.
  intros Hne. revert i l. induction n as [|n IH]; intros i l; [done|].
  simpl. destruct (l !! i) as [z|] eqn:Hz; [|done].
  case_decide; [|apply IH]. subst z.
  destruct (list_remove w l) as [r|] eqn:Hr; simpl; rewrite IH; [|done].
  by eapply list_remove_occ_ne.
Qed.

Lemma drop_waiter_occ w u l : u ≠ w → occ u (drop_waiter w l) = occ u l.
Proof. apply drop_waiter_loop_occ. Qed.

Lemma drop_waiter_loop_absent n i w l :
  w ∉ l → drop_waiter_loop n i w l = l.
Proof.
  intros Hw. revert i. induction n as [|n IH]; intros i; [done|].
  simpl. destruct (l !! i) as [z|] eqn:Hz; [|done].
  case_decide; [|apply IH]. subst z.
  exfalso. apply Hw. by eapply list_elem_of_lookup_2.
Qed.

(** A watcher that is listed once is removed. *)
Lemma drop_waiter_loop_once n i w l :
  occ w l = 1%nat → (length l ≤ i + n)%nat →
  (∀ j z, (j < i)%nat → l !! j = Some z → z ≠ w) →
  occ w (drop_waiter_loop n i w l) = 0%nat.
Proof.
  revert i l. induction n as [|n IH]; intros i l Hocc Hlen Hbefore.
  - simpl. exfalso.
    assert (w ∈ l) as Hin by (apply occ_pos; lia).
    apply list_elem_of_lookup in Hin as [j Hj].
    apply (Hbefore j w); [|done|done].
    apply lookup_lt_Some in Hj. lia.
  - simpl. destruct (l !! i) as [z|] eqn:Hz.
    + case_decide.
      * subst z. assert (w ∈ l) as Hin by (by eapply list_elem_of_lookup_2).
        destruct (list_remove_Some w l Hin) as [r Hr]. rewrite Hr. simpl.
        pose proof (list_remove_occ_eq _ _ _ Hr) as Ho.
        rewrite drop_waiter_loop_absent; [lia|].
        apply occ_zero. lia.
      * apply IH; [done|lia|]. intros j z' Hj Hl.
        destruct (decide (j = i)) as [->|]; [congruence|].
        apply (Hbefore j); [lia|done].
    + exfalso.
      assert (w ∈ l) as Hin by (apply occ_pos; lia).
      apply list_elem_of_lookup in Hin as [j Hj].
      apply lookup_ge_None in Hz. pose proof (lookup_lt_Some _ _ _ Hj).
      apply (Hbefore j w); [lia|done|done].
Qed.

Lemma drop_waiter_once w l : occ w l = 1%nat → occ w (drop_waiter w l) = 0%nat.
Proof.
  intros Ho. apply drop_waiter_loop_once; [done|lia|]. intros; lia.
Qed.

Lemma drop_waiter_absent w l : w ∉ l → drop_waiter w l = l.
Proof. apply drop_waiter_loop_absent. Qed.

(** ** Tasks that a notification does not concern *)

Lemma same_for_refl t s : same_for t s s.
Proof. by repeat split. Qed.

Lemma same_for_trans t s1 s2 s3 :
  same_for t s1 s2 → same_for t s2 s3 → same_for t s1 s3.
Proof.
  intros (H1 & H2 & H3 & H4 & H5) (K1 & K2 & K3 & K4 & K5).
  split_and!; [congruence|congruence|tauto|tauto|].
  intros k. by rewrite K5.
Qed.

Lemma schedule_same_for t w s : w ≠ t → same_for t s (schedule w s).
Proof.
  intros Hne. unfold schedule, same_for, nreg. case_decide; simpl.
  - split_and!; [done|done|set_solver|set_solver|done].
  - rewrite occ_app, occ_cons, decide_False by done.
    split_and!; done.
Qed.

Lemma schedule_now_same_for t w s : w ≠ t → same_for t s (schedule_now w s).
Proof.
  intros Hne. unfold schedule_now, same_for, nreg. case_decide; simpl.
  - split_and!; [done|done|set_solver|set_solver|done].
  - rewrite occ_cons, decide_False by done.
    split_and!; done.
Qed.

Lemma set_tasks_alter_same_for t w f s :
  w ≠ t → same_for t s (set_tasks (alter f w) s).
Proof.
  intros Hne. unfold same_for, nreg. simpl.
  split_and!; try done. by rewrite lookup_alter_ne.
Qed.

Lemma nreg_fmap_drop t w s k :
  w ≠ t →
  nreg t (set_exit_waiting (drop_waiter w <$> exit_waiting s) s) k
  = nreg t s k.
Proof.
  intros Hne. unfold nreg. simpl. rewrite lookup_fmap.
  destruct (exit_waiting s !! k) as [l|]; simpl; [|done].
  by apply drop_waiter_occ.
Qed.

Lemma nreg_filter t s k :
  nreg t (set_exit_waiting
            (filter (λ kv, kv.2 ≠ []) (exit_waiting s)) s) k
  = nreg t s k.
Proof.
  unfold nreg. simpl.
  destruct (exit_waiting s !! k) as [l|] eqn:E; simpl.
  - destruct l as [|u l].
    + rewrite map_lookup_filter_None_2; [done|].
      right. intros l' Hl'. simpl. congruence.
    + erewrite map_lookup_filter_Some_2; [done|done|done].
  - by rewrite map_lookup_filter_None_2 by (by left).
Qed.

Lemma notify_same_for t x s w : w ≠ t → same_for t s (notify x s w).
Proof.
  intros Hne. unfold notify. destruct (task_waitmode s w).
  - eapply same_for_trans; [|by apply schedule_same_for].
    eapply same_for_trans; [|by apply set_tasks_alter_same_for].
    unfold same_for. simpl. split_and!; try done.
    intros k. by apply nreg_fmap_drop.
  - destruct (still_waiting w (exit_waiting s)); [apply same_for_refl|].
    eapply same_for_trans; [|by apply schedule_same_for].
    by apply set_tasks_alter_same_for.
Qed.

Lemma notify_all_same_for t x ws s :
  t ∉ ws → same_for t s (foldl (notify x) s ws).
Proof.
  revert s. induction ws as [|w ws IH]; intros s Hni;
    [apply same_for_refl|].
  apply not_elem_of_cons in Hni as [Hne Hni]. simpl.
  eapply same_for_trans; [|by apply IH].
  by apply notify_same_for.
Qed.

(** The exit of [x] changes nothing for a task that is not registered as
    waiting for it. *)
Lemma exit_same_for t x s s' :
  exit x s = Ok s' → nreg t s x = 0%nat → same_for t s s'.
Proof.
  unfold exit. case_decide; [|done]. intros [= <-] Hreg. simpl.
  set (ws := default [] (exit_waiting s !! x)).
  set (s2 := set_exit_waiting _ (set_taskmap _ s)).
  assert (t ∉ ws) as Hni by (by apply occ_zero).
  assert (same_for t s s2) as H2.
  { unfold same_for, s2. simpl. split_and!; try done.
    intros k. unfold nreg. simpl.
    destruct (decide (k = x)) as [->|].
    - rewrite lookup_delete_eq. simpl. by rewrite occ_nil.
    - by rewrite lookup_delete_ne. }
  pose proof (notify_all_same_for t x ws s2 Hni) as H3.
  eapply same_for_trans; [exact H2|].
  eapply same_for_trans; [exact H3|].
  unfold same_for. simpl. split_and!; try done.
  intros k. apply nreg_filter.
Qed.

(** ** Registering for an exit *)

Lemma wait_for_exit_present t k s :
  k ∈ taskmap s →
  wait_for_exit t k s =
  (true, set_exit_waiting
           (<[k := default [] (exit_waiting s !! k) ++ [t]]> (exit_waiting s))
           s).
Proof. intros. unfold wait_for_exit. by case_decide. Qed.

Lemma wait_for_exit_absent t k s :
  k ∉ taskmap s → wait_for_exit t k s = (false, s).
Proof. intros. unfold wait_for_exit. by case_decide. Qed.

Lemma wait_for_exit_nreg u t k s j :
  nreg u (wait_for_exit t k s).2 j =
  (nreg u s j +
   if decide (k ∈ taskmap s ∧ j = k ∧ u = t) then 1 else 0)%nat.
Proof.
  unfold wait_for_exit. case_decide as Hk; simpl.
  - unfold nreg. simpl. destruct (decide (j = k)) as [->|Hj].
    + rewrite lookup_insert_eq. simpl. rewrite occ_app, occ_cons, occ_nil.
      destruct (decide (t = u)) as [->|Hu].
      * rewrite decide_True by done. lia.
      * rewrite decide_False by naive_solver. lia.
    + rewrite lookup_insert_ne by done.
      rewrite decide_False by naive_solver. lia.
  - rewrite decide_False by naive_solver. lia.
Qed.

Lemma wait_for_exit_fields t k s :
  let s' := (wait_for_exit t k s).2 in
  ready s' = ready s ∧ tasks s' = tasks s ∧ taskmap s' = taskmap s ∧
  paused_in_syscall s' = paused_in_syscall s ∧
  paused_in_ready s' = paused_in_ready s.
Proof. unfold wait_for_exit. by case_decide. Qed.

(** The second loop of [WaitAnyTasks.handle]. *)
Lemma wait_any_fold t tids s :
  Forall (λ k, k ∈ taskmap s) tids →
  let s' := foldl (λ a tid, (wait_for_exit t tid a).2) s tids in
  ready s' = ready s ∧ tasks s' = tasks s ∧ taskmap s' = taskmap s ∧
  paused_in_syscall s' = paused_in_syscall s ∧
  paused_in_ready s' = paused_in_ready s ∧
  ∀ u j, nreg u s' j = (nreg u s j + if decide (u = t) then occ j tids else 0)%nat.
Proof.
  revert s. induction tids as [|k tids IH]; intros s Hall; simpl.
  - split_and!; try done. intros u j. rewrite occ_nil. case_decide; lia.
  - apply Forall_cons in Hall as [Hk Hall].
    pose proof (wait_for_exit_fields t k s) as (F1 & F2 & F3 & F4 & F5).
    destruct (IH (wait_for_exit t k s).2) as (G1 & G2 & G3 & G4 & G5 & G6).
    { by rewrite F3. }
    split_and!; try congruence.
    intros u j. rewrite G6, wait_for_exit_nreg, occ_cons.
    repeat case_decide; naive_solver lia.
Qed.

Lemma first_missing_None tids s :
  first_missing tids s = None ↔ Forall (λ k, k ∈ taskmap s) tids.
Proof.
  unfold first_missing. rewrite fmap_None, list_find_None.
  apply Forall_iff. intros k. split; [apply dec_stable|naive_solver].
Qed.

(** The id found by the first loop is the first one of the list that is
    not in the task table. *)
Lemma first_missing_Some tids s m :
  first_missing tids s = Some m →
  ∃ i, tids !! i = Some m ∧ (m ∉ taskmap s) ∧
       ∀ j k, (j < i)%nat → tids !! j = Some k → k ∈ taskmap s.
Proof.
  unfold first_missing. rewrite fmap_Some. intros ([i m'] & Hf & ->).
  apply list_find_Some in Hf as (Hi & Hm & Hbefore).
  exists i. split; [done|]. split; [done|].
  intros j k Hj Hk. apply dec_stable. by eapply Hbefore.
Qed.

(** C5: [WaitAnyTasks] registers the caller, in mode [WAIT_ANY], as a
    watcher of every id when all of them are in the task table, and then
    parks it; when some id is not, the caller is rescheduled at once with
    the first such id as its resume value and the registry is untouched,
    so that the caller (registered nowhere before) is registered nowhere:
    a later exit or kill of another task changes nothing for it. *)
Theorem WaitAnyTasks_all_or_nothing s t tids :
  (∀ k, nreg t s k = 0%nat) →
  t ∉ paused_in_syscall s →
  (Forall (λ k, k ∈ taskmap s) tids →
   ∃ s', handle (WaitAnyTasks tids) t s = Ok s' ∧
     task_waitmode s' t = WAIT_ANY ∧
     ready s' = ready s ∧
     (∀ k, nreg t s' k = occ k tids) ∧
     (∀ k, k ∈ tids → t ∈ default [] (exit_waiting s' !! k))) ∧
  (¬ Forall (λ k, k ∈ taskmap s) tids →
   ∃ s' m i, handle (WaitAnyTasks tids) t s = Ok s' ∧
     tids !! i = Some m ∧ (m ∉ taskmap s) ∧
     (∀ j k, (j < i)%nat → tids !! j = Some k → k ∈ taskmap s) ∧
     tasks s' !! t
       = (λ k, mkTask (target k) (VTid m) WAIT_ANY) <$> tasks s !! t ∧
     ready s' = ready s ++ [t] ∧
     exit_waiting s' = exit_waiting s ∧
     (∀ k, nreg t s' k = 0%nat) ∧
     (∀ x s'', exit x s' = Ok s'' → same_for t s' s'') ∧
     (∀ x, x ≠ t → same_for t s' (close x s'))).
Proof.
  intros Hreg Hp. split; intros Hall.
  - set (s1 := set_waitmode t WAIT_ANY s).
    assert (first_missing tids s1 = None) as Hfm
      by (by apply first_missing_None).
    destruct (wait_any_fold t tids s1) as (G1 & G2 & G3 & G4 & G5 & G6);
      [done|].
    eexists. split; [simpl; fold s1; by rewrite Hfm|].
    assert (∀ k, nreg t
              (foldl (λ a tid, (wait_for_exit t tid a).2) s1 tids) k
            = occ k tids) as Hn.
    { intros k. rewrite G6, decide_True by done.
      change (nreg t s1 k) with (nreg t s k). rewrite Hreg. lia. }
    split_and!; [|done|done|].
    + unfold task_waitmode. rewrite G2. simpl. rewrite lookup_alter_eq.
      by destruct (tasks s !! t).
    + intros k Hk. apply occ_pos. fold (nreg t
        (foldl (λ a tid, (wait_for_exit t tid a).2) s1 tids) k).
      rewrite Hn. by apply occ_pos.
  - set (s1 := set_waitmode t WAIT_ANY s).
    destruct (first_missing tids s1) as [m|] eqn:Hfm.
    2: { apply first_missing_None in Hfm. done. }
    destruct (first_missing_Some _ _ _ Hfm) as (i & Hi & Hm & Hbefore).
    set (s' := schedule t (set_sendval t (VTid m) s1)).
    assert (s' = set_ready (ready s ++ [t]) (set_sendval t (VTid m) s1))
      as Hs' by (unfold s'; by rewrite schedule_unpaused).
    assert (∀ k, nreg t s' k = 0%nat) as Hn.
    { intros k. rewrite Hs'. apply Hreg. }
    exists s', m, i. split; [simpl; fold s1; by rewrite Hfm|].
    split_and!; try done.
    + rewrite Hs'. simpl. rewrite !lookup_alter_eq.
      by destruct (tasks s !! t).
    + by rewrite Hs'.
    + by rewrite Hs'.
    + intros x s'' Hx. by eapply exit_same_for.
    + intros x Hx. by apply set_tasks_alter_same_for.
Qed.

(** ** wait-all *)

Lemma wait_each_acc t tids b s :
  let r := foldl (λ acc tid,
                    (acc.1 || (wait_for_exit t tid acc.2).1,
                     (wait_for_exit t tid acc.2).2))
             (b, s) tids in
  r.1 = b || bool_decide (Exists (λ k, k ∈ taskmap s) tids) ∧
  ready r.2 = ready s ∧ tasks r.2 = tasks s ∧ taskmap r.2 = taskmap s ∧
  paused_in_syscall r.2 = paused_in_syscall s ∧
  paused_in_ready r.2 = paused_in_ready s ∧
  ∀ u j, nreg u r.2 j =
         (nreg u s j +
          if decide (u = t)
          then occ j (filter (λ k, k ∈ taskmap s) tids) else 0)%nat.
Proof.
  revert b s. induction tids as [|k tids IH]; intros b s.
  - simpl. split_and!; try done.
    + by rewrite orb_false_r.
    + intros u j. rewrite filter_nil, occ_nil. case_decide; lia.
  - cbn [foldl snd fst]. pose proof (wait_for_exit_fields t k s) as (F1 & F2 & F3 & F4 & F5).
    destruct (IH (b || (wait_for_exit t k s).1) (wait_for_exit t k s).2)
      as (G0 & G1 & G2 & G3 & G4 & G5 & G6).
    rewrite F3 in G0, G6. split_and!; try congruence.
    + rewrite G0. unfold wait_for_exit. case_decide as Hk; simpl.
      * rewrite orb_true_r. simpl.
        rewrite bool_decide_eq_true_2; [by rewrite orb_true_r|].
        by apply Exists_cons; left.
      * rewrite orb_false_r. f_equal. apply bool_decide_ext.
        rewrite Exists_cons. tauto.
    + intros u j. rewrite G6, wait_for_exit_nreg, filter_cons.
      destruct (decide (k ∈ taskmap s)) as [Hk|Hk].
      * rewrite occ_cons. repeat case_decide; naive_solver lia.
      * repeat case_decide; naive_solver lia.
Qed.

Lemma wait_each_spec t tids s :
  let r := wait_each t tids s in
  r.1 = bool_decide (Exists (λ k, k ∈ taskmap s) tids) ∧
  ready r.2 = ready s ∧ tasks r.2 = tasks s ∧ taskmap r.2 = taskmap s ∧
  paused_in_syscall r.2 = paused_in_syscall s ∧
  paused_in_ready r.2 = paused_in_ready s ∧
  ∀ u j, nreg u r.2 j =
         (nreg u s j +
          if decide (u = t)
          then occ j (filter (λ k, k ∈ taskmap s) tids) else 0)%nat.
Proof. exact (wait_each_acc t tids false s). Qed.

Lemma occ_NoDup j l : NoDup l → occ j l = if decide (j ∈ l) then 1%nat else 0%nat.
Proof.
  induction 1 as [|u l Hu Hnd IH]; [done|].
  rewrite occ_cons, IH. repeat case_decide; set_solver.
Qed.

Lemma occ_one_split t l :
  occ t l = 1%nat → ∃ l1 l2, l = l1 ++ t :: l2 ∧ (t ∉ l1) ∧ (t ∉ l2).
Proof.
  intros Ho. assert (t ∈ l) as Hin by (apply occ_pos; lia).
  apply list_elem_of_split_l in Hin as (l1 & l2 & -> & Hl1).
  exists l1, l2. split; [done|]. split; [done|].
  rewrite occ_app, occ_cons, decide_True in Ho by done.
  apply occ_zero. lia.
Qed.

Lemma still_waiting_spec t s :
  still_waiting t (exit_waiting s) = true ↔ ∃ k, (0 < nreg t s k)%nat.
Proof.
  unfold still_waiting. rewrite bool_decide_eq_true, map_Exists_lookup.
  unfold nreg. split.
  - intros (k & l & Hl & Hin). exists k. rewrite Hl. by apply occ_pos.
  - intros (k & Hk). apply occ_pos in Hk.
    destruct (exit_waiting s !! k) as [l|] eqn:E; [eauto|].
    by apply elem_of_nil in Hk.
Qed.

Lemma same_for_waitmode t s s' :
  same_for t s s' → task_waitmode s' t = task_waitmode s t.
Proof. intros (_ & Ht & _). unfold task_waitmode. by rewrite Ht. Qed.

Lemma same_for_schedule t v s s' :
  same_for t s s' →
  same_for t (schedule t (set_sendval t v s)) (schedule t (set_sendval t v s')).
Proof.
  intros (H1 & H2 & H3 & H4 & H5). unfold schedule. simpl.
  destruct (decide (t ∈ paused_in_syscall s)) as [Hp|Hp].
  - rewrite decide_True by (by apply H3).
    unfold same_for, nreg. simpl.
    split_and!; [done|by rewrite !lookup_alter_eq, H2|set_solver|set_solver|].
    apply H5.
  - rewrite decide_False by (by rewrite H3).
    unfold same_for, nreg. simpl.
    split_and!; [by rewrite !occ_app, H1|by rewrite !lookup_alter_eq, H2|
                 done|done|apply H5].
Qed.

(** The exit of [x] for a task [t] registered once as waiting for it in
    mode [WAIT_ALL]: [t] loses that registration and nothing else while
    it is registered for another exit, and is scheduled with [x] as its
    resume value when it was the last one. *)
Lemma exit_wait_all t x s s' :
  exit x s = Ok s' →
  nreg t s x = 1%nat →
  task_waitmode s t = WAIT_ALL →
  ((∃ k, k ≠ x ∧ (0 < nreg t s k)%nat) → same_for t (unregister x s) s') ∧
  ((∀ k, k ≠ x → nreg t s k = 0%nat) →
   same_for t (schedule t (set_sendval t (VTid x) (unregister x s))) s').
Proof.
  unfold exit. case_decide; [|done]. intros [= <-] Hreg Hmode.
  destruct (occ_one_split _ _ Hreg) as (ws1 & ws2 & Hws & Hn1 & Hn2).
  fold (nreg t s x) in Hreg. simpl. rewrite Hws, foldl_app. simpl.
  set (s2 := set_exit_waiting _ (set_taskmap _ s)).
  assert (same_for t (unregister x s) s2) as H2 by (by repeat split).
  set (a := foldl (notify x) s2 ws1).
  assert (same_for t s2 a) as Ha by (by apply notify_all_same_for).
  assert (task_waitmode a t = WAIT_ALL) as Hma.
  { rewrite (same_for_waitmode t s2 a Ha). done. }
  assert (∀ k, nreg t a k = if decide (k = x) then 0%nat else nreg t s k)
    as Hna.
  { intros k. destruct Ha as (_ & _ & _ & _ & ->). unfold nreg, s2. simpl.
    case_decide as Hk.
    - subst k. by rewrite lookup_delete_eq.
    - by rewrite lookup_delete_ne. }
  assert (∀ b, same_for t b
            (set_exit_waiting (filter (λ kv : nat * list nat, kv.2 ≠ [])
               (exit_waiting (foldl (notify x) b ws2)))
               (foldl (notify x) b ws2))) as Hrest.
  { intros b. eapply same_for_trans; [by apply notify_all_same_for|].
    unfold same_for. simpl. split_and!; try done. intros k.
    apply nreg_filter. }
  assert (notify x a t =
          if still_waiting t (exit_waiting a) then a
          else schedule t (set_sendval t (VTid x) a)) as Hnt.
  { unfold notify. by rewrite Hma. }
  rewrite Hnt. split.
  - intros (k & Hk & Hpos).
    assert (still_waiting t (exit_waiting a) = true) as ->.
    { apply still_waiting_spec. exists k. rewrite Hna.
      by rewrite decide_False. }
    eapply same_for_trans; [exact H2|].
    eapply same_for_trans; [exact Ha|]. apply Hrest.
  - intros Hnone.
    assert (still_waiting t (exit_waiting a) = false) as ->.
    { destruct (still_waiting t (exit_waiting a)) eqn:E; [|done].
      apply still_waiting_spec in E as (k & Hk). rewrite Hna in Hk.
      case_decide; [lia|]. rewrite Hnone in Hk by done. lia. }
    eapply same_for_trans; [|apply Hrest].
    apply same_for_schedule. by eapply same_for_trans.
Qed.

Lemma same_for_sendval t s s' :
  same_for t s s' → task_sendval s' t = task_sendval s t.
Proof. intros (_ & Ht & _). unfold task_sendval. by rewrite Ht. Qed.

Lemma schedule_tasks t s : tasks (schedule t s) = tasks s.
Proof. unfold schedule. by case_decide. Qed.

Lemma task_sendval_set t v s :
  is_Some (tasks s !! t) → task_sendval (set_sendval t v s) t = v.
Proof.
  intros [k Hk]. unfold task_sendval. simpl.
  by rewrite lookup_alter_eq, Hk.
Qed.

(** The request itself. *)
Lemma WaitAllTasks_handle s t tids :
  NoDup tids →
  is_Some (tasks s !! t) →
  (∀ k, nreg t s k = 0%nat) →
  t ∉ paused_in_syscall s →
  ∃ s1, handle (WaitAllTasks tids) t s = Ok s1 ∧
    task_waitmode s1 t = WAIT_ALL ∧
    (∀ k, nreg t s1 k =
          if decide (k ∈ tids ∧ k ∈ taskmap s) then 1%nat else 0%nat) ∧
    (Forall (λ k, k ∉ taskmap s) tids →
       task_sendval s1 t = VBool false ∧ ready s1 = ready s ++ [t] ∧
       ∀ k, nreg t s1 k = 0%nat) ∧
    (Exists (λ k, k ∈ taskmap s) tids →
       task_sendval s1 t = VBool true ∧ ready s1 = ready s).
Proof.
  intros Hnd [tk Htk] Hreg Hp.
  set (s0 := set_waitmode t WAIT_ALL s).
  destruct (wait_each_spec t tids s0) as (G0 & G1 & G2 & G3 & G4 & G5 & G6).
  set (r := wait_each t tids s0) in *.
  assert (∀ k, nreg t r.2 k =
            if decide (k ∈ tids ∧ k ∈ taskmap s) then 1%nat else 0%nat) as Hn.
  { intros k. rewrite G6, decide_True by done.
    change (nreg t s0 k) with (nreg t s k). rewrite Hreg.
    rewrite occ_NoDup by (by apply NoDup_filter).
    simpl. apply decide_ext. by rewrite list_elem_of_filter, (comm and). }
  assert (tasks r.2 !! t = Some (mkTask (target tk) (sendval tk) WAIT_ALL))
    as Hobj.
  { rewrite G2. simpl. by rewrite lookup_alter_eq, Htk. }
  destruct r.1 eqn:Hr1.
  - exists (set_sendval t (VBool true) r.2).
    split; [simpl; fold s0; fold r; by rewrite Hr1|].
    split_and!.
    + unfold task_waitmode. simpl. by rewrite lookup_alter_eq, Hobj.
    + done.
    + intros Hnone. symmetry in G0. apply bool_decide_eq_true in G0.
      apply Exists_exists in G0 as (k & Hk & Hin).
      rewrite Forall_forall in Hnone. by destruct (Hnone k Hk).
    + intros _. split; [|done]. apply task_sendval_set. by rewrite Hobj.
  - exists (schedule t (set_sendval t (VBool false) r.2)).
    split; [simpl; fold s0; fold r; by rewrite Hr1|].
    rewrite schedule_unpaused by (simpl; by rewrite G4).
    split_and!.
    + unfold task_waitmode. simpl. by rewrite lookup_alter_eq, Hobj.
    + done.
    + intros Hnone. split; [apply task_sendval_set; by rewrite Hobj|].
      split; [simpl; by rewrite G1|].
      intros k. change (nreg t r.2 k = 0%nat). rewrite Hn.
      rewrite decide_False; [done|]. intros [Hk Hin].
      rewrite Forall_forall in Hnone. by destruct (Hnone k Hk).
    + intros Hex. symmetry in G0. apply bool_decide_eq_false in G0.
      by destruct G0.
Qed.

Lemma same_for_is_Some t s s' :
  same_for t s s' → is_Some (tasks s !! t) → is_Some (tasks s' !! t).
Proof. intros (_ & -> & _). done. Qed.

Lemma unregister_nreg t x s k :
  nreg t (unregister x s) k = if decide (k = x) then 0%nat else nreg t s k.
Proof.
  unfold nreg, unregister. simpl. case_decide as Hk.
  - subst k. by rewrite lookup_delete_eq.
  - by rewrite lookup_delete_ne.
Qed.

(** A sequence of exits, seen from a task [t] waiting in mode [WAIT_ALL]:
    [t] stays out of the ready queue, with its resume value untouched,
    until every task it is registered for has exited; the exit that
    completes the set schedules it once, with the id of that task. *)
Lemma exits_wait_all t s1 xs s' :
  task_waitmode s1 t = WAIT_ALL →
  t ∉ paused_in_syscall s1 →
  is_Some (tasks s1 !! t) →
  (∀ k, (nreg t s1 k ≤ 1)%nat) →
  exits xs s1 = Ok s' →
  task_waitmode s' t = WAIT_ALL ∧
  (t ∉ paused_in_syscall s') ∧
  is_Some (tasks s' !! t) ∧
  (∀ k, nreg t s' k = if decide (k ∈ xs) then 0%nat else nreg t s1 k) ∧
  ((∃ k, nreg t s1 k = 1%nat ∧ k ∉ xs) →
     occ t (ready s') = occ t (ready s1) ∧ tasks s' !! t = tasks s1 !! t) ∧
  ((∃ k, nreg t s1 k = 1%nat) → (∀ k, nreg t s1 k = 1%nat → k ∈ xs) →
     occ t (ready s') = S (occ t (ready s1)) ∧
     ∃ xs1 x xs2, xs = xs1 ++ x :: xs2 ∧ nreg t s1 x = 1%nat ∧ (x ∉ xs1) ∧
       (∀ k, nreg t s1 k = 1%nat → k ≠ x → k ∈ xs1) ∧
       task_sendval s' t = VTid x).
Proof.
  intros Hmode Hp Hobj Hle. revert s'.
  induction xs as [|x xs IH] using rev_ind; intros s' Hex.
  - injection Hex as <-. split_and!; try done.
    intros [k Hk] Hall. specialize (Hall k Hk).
    by apply elem_of_nil in Hall.
  - unfold exits in Hex. rewrite foldlM_app in Hex.
    fold (exits xs s1) in Hex.
    destruct (exits xs s1) as [a| |] eqn:Ha; simpl in Hex; [|done..].
    destruct (exit x a) as [s''| |] eqn:Hx; simpl in Hex; [|done..].
    injection Hex as <-.
    destruct (IH a eq_refl) as (J1 & Jp & Jo & J2 & J3 & J4). clear IH.
    destruct (decide (nreg t a x = 0%nat)) as [Hz|Hnz].
    + (* the exit of [x] does not concern [t] *)
      pose proof (exit_same_for t x a s'' Hx Hz) as Hsf.
      assert (x ∈ xs ∨ nreg t s1 x = 0%nat) as Hxx.
      { rewrite J2 in Hz. case_decide; [by left|by right]. }
      split_and!.
      * by rewrite (same_for_waitmode _ _ _ Hsf).
      * destruct Hsf as (_ & _ & -> & _). done.
      * by eapply same_for_is_Some.
      * intros k. destruct Hsf as (_ & _ & _ & _ & ->). rewrite J2.
        destruct (decide (k = x)) as [->|Hk].
        -- rewrite (decide_True (P := x ∈ xs ++ [x])) by set_solver.
           case_decide; [done|]. by destruct Hxx.
        -- apply decide_ext. set_solver.
      * intros (k & Hk1 & Hk2).
        destruct Hsf as (-> & -> & _). apply J3. exists k. set_solver.
      * intros Hsome Hall.
        assert (∀ k, nreg t s1 k = 1%nat → k ∈ xs) as Hall'.
        { intros k Hk. specialize (Hall k Hk).
          apply elem_of_app in Hall as [?|Hl]; [done|].
          apply list_elem_of_singleton in Hl as ->.
          destruct Hxx; [done|lia]. }
        destruct (J4 Hsome Hall') as (Ho & xs1 & x0 & xs2 & -> & K).
        destruct Hsf as (Hr & Ht & _). split; [by rewrite Hr|].
        exists xs1, x0, (xs2 ++ [x]). rewrite <- app_assoc. simpl.
        split; [done|]. unfold task_sendval in *. by rewrite Ht.
    + (* [t] is registered for the exit of [x] *)
      assert ((x ∉ xs) ∧ nreg t s1 x = 1%nat) as [Hxs Hx1].
      { rewrite J2 in Hnz. case_decide; [done|].
        pose proof (Hle x). split; [done|lia]. }
      assert (nreg t a x = 1%nat) as Hax.
      { rewrite J2. by rewrite decide_False. }
      destruct (exit_wait_all t x a s'' Hx Hax J1) as [Estill Elast].
      destruct (J3 (ex_intro _ x (conj Hx1 Hxs))) as [Ho Ht].
      assert (∀ k, nreg t (unregister x a) k
                   = if decide (k ∈ xs ++ [x]) then 0%nat else nreg t s1 k)
        as Hun.
      { intros k. rewrite unregister_nreg, J2.
        destruct (decide (k = x)) as [->|Hk].
        - by rewrite decide_True by set_solver.
        - apply decide_ext. set_solver. }
      destruct (decide (Exists (λ k, k ≠ x ∧ nreg t s1 k = 1%nat ∧ k ∉ xs)
                          (elements (dom (exit_waiting s1)))))
        as [Hother|Hnone].
      * apply Exists_exists in Hother as (k & _ & Hne & Hk1 & Hkx).
        assert (same_for t (unregister x a) s'') as Hsf.
        { apply Estill. exists k. split; [done|]. rewrite J2.
          rewrite decide_False by done. lia. }
        split_and!.
        -- by rewrite (same_for_waitmode _ _ _ Hsf).
        -- destruct Hsf as (_ & _ & -> & _). done.
        -- by eapply same_for_is_Some.
        -- intros k'. destruct Hsf as (_ & _ & _ & _ & ->). apply Hun.
        -- intros _. destruct Hsf as (-> & -> & _). done.
        -- intros _ Hall. specialize (Hall k Hk1). set_solver.
      * assert (∀ k, nreg t s1 k = 1%nat → k ≠ x → k ∈ xs) as Hall.
        { intros k Hk1 Hne. destruct (decide (k ∈ xs)) as [|Hni]; [done|].
          exfalso. apply Hnone. apply Exists_exists. exists k.
          split; [|done].
          apply elem_of_elements, elem_of_dom. unfold nreg in Hk1.
          destruct (exit_waiting s1 !! k); [done|]. simpl in Hk1.
          rewrite occ_nil in Hk1. lia. }
        assert (same_for t
                  (schedule t (set_sendval t (VTid x) (unregister x a))) s'')
          as Hsf.
        { apply Elast. intros k Hk. rewrite J2. case_decide; [done|].
          pose proof (Hle k). destruct (decide (nreg t s1 k = 1%nat));
            [|lia]. exfalso. by eauto. }
        rewrite schedule_unpaused in Hsf by done.
        split_and!.
        -- rewrite (same_for_waitmode _ _ _ Hsf). unfold task_waitmode.
           simpl. rewrite lookup_alter_eq. unfold task_waitmode in J1.
           by destruct (tasks a !! t).
        -- destruct Hsf as (_ & _ & -> & _). done.
        -- eapply same_for_is_Some; [exact Hsf|]. simpl.
           rewrite lookup_alter_eq. destruct Jo as [? ->]. by eexists.
        -- intros k'. destruct Hsf as (_ & _ & _ & _ & ->). apply Hun.
        -- intros (k & Hk1 & Hk2). exfalso.
           assert (k ≠ x) by set_solver. specialize (Hall k Hk1 H0).
           set_solver.
        -- intros _ _. split.
           ++ destruct Hsf as (-> & _). simpl.
              rewrite occ_app, occ_cons, occ_nil, decide_True by done. lia.
           ++ exists xs, x, []. split_and!; try done.
              rewrite (same_for_sendval _ _ _ Hsf).
              by apply (task_sendval_set t (VTid x) (unregister x a)).
Qed.

(** C4: [WaitAllTasks] puts the caller in mode [WAIT_ALL] and registers
    it once for every id of the set that is in the task table.  When
    there is none the caller is rescheduled at once with [False] and is
    registered nowhere.  Otherwise it is parked: along any sequence of
    exits it stays out of the ready queue (resume value untouched) as
    long as one of the watched tasks has not exited, and the exit that
    completes the set schedules it exactly once, with the id of that last
    task as its resume value. *)
Theorem WaitAllTasks_spec s t tids :
  NoDup tids →
  is_Some (tasks s !! t) →
  (∀ k, nreg t s k = 0%nat) →
  t ∉ paused_in_syscall s →
  ∃ s1, handle (WaitAllTasks tids) t s = Ok s1 ∧
    task_waitmode s1 t = WAIT_ALL ∧
    (∀ k, nreg t s1 k =
          if decide (k ∈ tids ∧ k ∈ taskmap s) then 1%nat else 0%nat) ∧
    (Forall (λ k, k ∉ taskmap s) tids →
       task_sendval s1 t = VBool false ∧ ready s1 = ready s ++ [t] ∧
       ∀ k, nreg t s1 k = 0%nat) ∧
    (Exists (λ k, k ∈ taskmap s) tids →
       ready s1 = ready s ∧
       ∀ xs s', exits xs s1 = Ok s' →
         (∀ k, nreg t s' k = if decide (k ∈ xs) then 0%nat else nreg t s1 k) ∧
         ((∃ k, k ∈ tids ∧ k ∈ taskmap s ∧ k ∉ xs) →
            occ t (ready s') = occ t (ready s1) ∧
            task_sendval s' t = VBool true) ∧
         ((∀ k, k ∈ tids → k ∈ taskmap s → k ∈ xs) →
            occ t (ready s') = S (occ t (ready s1)) ∧
            ∃ xs1 x xs2, xs = xs1 ++ x :: xs2 ∧
              x ∈ tids ∧ x ∈ taskmap s ∧ (x ∉ xs1) ∧
              (∀ k, k ∈ tids → k ∈ taskmap s → k ≠ x → k ∈ xs1) ∧
              task_sendval s' t = VTid x)).
Proof.
  intros Hnd Hobj Hreg Hp.
  destruct (WaitAllTasks_handle s t tids Hnd Hobj Hreg Hp)
    as (s1 & Hh & Hmode & Hn & Hnone & Hsome).
  exists s1. split_and!; try done.
  intros Hex. destruct (Hsome Hex) as [Hsv Hrd]. split; [done|].
  assert (∀ k, nreg t s1 k = 1%nat ↔ k ∈ tids ∧ k ∈ taskmap s) as H1.
  { intros k. rewrite Hn. case_decide; [done|]. split; [lia|done]. }
  assert (is_Some (tasks s1 !! t)) as Hobj1.
  { unfold task_sendval in Hsv. by destruct (tasks s1 !! t). }
  assert (t ∉ paused_in_syscall s1) as Hp1.
  { simpl in Hh. destruct (wait_each_spec t tids (set_waitmode t WAIT_ALL s))
      as (_ & _ & _ & _ & G4 & _).
    destruct (wait_each t tids _).1; injection Hh as <-;
      rewrite ?schedule_unpaused; simpl; rewrite G4; done. }
  intros xs s' Hxs.
  destruct (exits_wait_all t s1 xs s' Hmode Hp1 Hobj1) as
    (_ & _ & _ & J2 & J3 & J4); [|done|].
  { intros k. rewrite Hn. case_decide; lia. }
  split_and!; [done| |].
  - intros (k & Hk1 & Hk2 & Hk3).
    destruct J3 as [Ho Ht]; [exists k; by rewrite H1|].
    split; [done|]. unfold task_sendval in *. by rewrite Ht.
  - intros Hall. apply Exists_exists in Hex as (k0 & Hk0 & Hk0').
    destruct J4 as (Ho & xs1 & x & xs2 & -> & Hx & Hx1 & Hothers & Hv).
    { exists k0. by rewrite H1. }
    { intros k Hk. apply H1 in Hk as [? ?]. by apply Hall. }
    split; [done|]. exists xs1, x, xs2. apply H1 in Hx as [? ?].
    split_and!; try done.
    intros k Hk Hk' Hne. apply Hothers; [|done]. by apply H1.
Qed.

(** ** Paused tasks *)

Lemma notify_paused t x s :
  t ∈ paused_in_syscall s → ready (notify x s t) = ready s.
Proof.
  intros Hp. unfold notify. destruct (task_waitmode s t).
  - by rewrite schedule_paused.
  - destruct (still_waiting t (exit_waiting s)); [done|].
    by rewrite schedule_paused.
Qed.

Lemma notify_exit_waiting_None x s w k :
  exit_waiting s !! k = None → exit_waiting (notify x s w) !! k = None.
Proof.
  intros Hk. unfold notify, schedule.
  destruct (task_waitmode s w); [|destruct (still_waiting _ _)];
    repeat case_decide; simpl; rewrite ?lookup_fmap, ?Hk; done.
Qed.

(** After the exit of [x] nobody is registered for it. *)
Lemma exit_nreg_exited u x s s' : exit x s = Ok s' → nreg u s' x = 0%nat.
Proof.
  unfold exit. case_decide; [|done]. intros [= <-]. rewrite nreg_filter.
  unfold nreg.
  assert (exit_waiting
            (foldl (notify x)
               (set_exit_waiting (delete x (exit_waiting s))
                  (set_taskmap (taskmap s ∖ {[x]}) s))
               (default [] (exit_waiting s !! x))) !! x = None) as ->; [|done].
  apply (foldl_inv (λ a, exit_waiting a !! x = None)).
  - simpl. apply lookup_delete_eq.
  - intros a w Ha. by apply notify_exit_waiting_None.
Qed.

(** An exit notification does not put a task that is paused while parked
    into the ready queue, provided it is registered at most once for that
    exit. *)
Lemma exit_paused t x s s' :
  t ∈ paused_in_syscall s →
  (nreg t s x ≤ 1)%nat →
  exit x s = Ok s' →
  occ t (ready s') = occ t (ready s).
Proof.
  intros Hp Hle Hx.
  destruct (decide (nreg t s x = 0%nat)) as [Hz|Hnz].
  { by destruct (exit_same_for t x s s' Hx Hz) as (-> & _). }
  assert (nreg t s x = 1%nat) as Hreg by lia.
  revert Hx. unfold exit. case_decide; [|done]. intros [= <-].
  destruct (occ_one_split _ _ Hreg) as (ws1 & ws2 & Hws & Hn1 & Hn2).
  simpl. rewrite Hws, foldl_app. simpl.
  set (s2 := set_exit_waiting _ (set_taskmap _ s)).
  set (a := foldl (notify x) s2 ws1).
  assert (same_for t s2 a) as Ha by (by apply notify_all_same_for).
  assert (t ∈ paused_in_syscall a) as Hpa.
  { destruct Ha as (_ & _ & -> & _). done. }
  destruct (notify_all_same_for t x ws2 (notify x a t) Hn2) as (-> & _).
  rewrite (notify_paused t x a Hpa).
  by destruct Ha as (-> & _).
Qed.

(** In mode [WAIT_ANY] the notification consumes the registration and
    records the wakeup in [paused_in_ready]. *)
Lemma exit_paused_any t x s s' :
  t ∈ paused_in_syscall s →
  nreg t s x = 1%nat →
  task_waitmode s t = WAIT_ANY →
  exit x s = Ok s' →
  t ∈ paused_in_ready s' ∧ (t ∉ paused_in_syscall s') ∧ nreg t s' x = 0%nat.
Proof.
  intros Hp Hreg Hmode Hx.
  split_and!; [| |by eapply exit_nreg_exited].
  all: revert Hx; unfold exit; case_decide; [|done]; intros [= <-];
    destruct (occ_one_split _ _ Hreg) as (ws1 & ws2 & Hws & Hn1 & Hn2);
    simpl; rewrite Hws, foldl_app; simpl;
    set (s2 := set_exit_waiting _ (set_taskmap _ s));
    set (a := foldl (notify x) s2 ws1);
    assert (same_for t s2 a) as Ha by (by apply notify_all_same_for);
    assert (t ∈ paused_in_syscall a) as Hpa
      by (destruct Ha as (_ & _ & -> & _); done);
    assert (task_waitmode a t = WAIT_ANY) as Hma
      by (by rewrite (same_for_waitmode _ _ _ Ha));
    destruct (notify_all_same_for t x ws2 (notify x a t) Hn2)
      as (_ & _ & Hq1 & Hq2 & _);
    assert (notify x a t =
            schedule t (set_sendval t (VTid x)
              (set_exit_waiting (drop_waiter t <$> exit_waiting a) a)))
      as Hnt by (unfold notify; by rewrite Hma);
    rewrite Hnt in Hq1, Hq2 |- *;
    rewrite schedule_paused in Hq1, Hq2 |- * by done; simpl in Hq1, Hq2.
  - apply Hq2. set_solver.
  - rewrite Hq1. set_solver.
Qed.

Lemma fire_paused t f s :
  t ∈ paused_in_syscall s →
  occ t (ready (fire f s)) = occ t (ready s) ∧
  (cb_task f = t →
   t ∈ paused_in_ready (fire f s) ∧ t ∉ paused_in_syscall (fire f s)).
Proof.
  intros Hp. split.
  - destruct (decide (cb_task f = t)) as [<-|Hne].
    + destruct f; simpl in *; by rewrite schedule_now_paused.
    + destruct f; simpl in *.
      * by destruct (schedule_now_same_for t task s Hne) as (-> & _).
      * by destruct (schedule_now_same_for t task
                       (set_rates (alter
                          (λ r, mkRate (duration r) (current_time s)) rate
                          (rates s)) s) Hne) as (-> & _).
  - intros <-. destruct f; simpl in *;
      rewrite schedule_now_paused by done; simpl; set_solver.
Qed.

(** A write to a condition variable skips the tasks that are paused while
    parked: they stay out of the ready queue and keep their entries in the
    condition registry. *)
Lemma cv_set_paused t name val s :
  t ∈ paused_in_syscall s →
  cond_wf (cond_waiting s) →
  ∃ s', cv_set name val s = Ok s' ∧
    occ t (ready s') = occ t (ready s) ∧
    t ∈ paused_in_syscall s' ∧
    ∀ v l c, cond_waiting s !! v = Some l → (c, t) ∈ l →
             ∃ l', cond_waiting s' !! v = Some l' ∧ (c, t) ∈ l'.
Proof.
  intros Hp Hwf. unfold cv_set.
  set (s0 := set_cvars (<[name := val]> (cvars s)) s).
  destruct (cond_waiting s0 !! name) as [cands|] eqn:Hc.
  - destruct (test_conditions_total name cands s0 Hwf Hc)
      as (m' & Hm' & _ & Hkeep).
    eexists. split; [exact Hm'|]. simpl. split_and!; [|done|].
    + rewrite occ_app.
      assert (occ t (filter (wakes s0) cands).*2 = 0%nat) as ->; [|lia].
      apply occ_zero. intros Hin. apply list_elem_of_fmap in Hin
        as ([c u] & Hu & Hin). simpl in Hu. subst u.
      apply list_elem_of_filter in Hin as [Hw _]. unfold wakes in Hw.
      simpl in Hw. rewrite bool_decide_eq_false_2 in Hw by tauto. done.
    + intros v l c Hl Hin. apply (Hkeep v l (c, t) Hl Hin).
      unfold wakes. simpl. by rewrite bool_decide_eq_false_2 by tauto.
  - exists s0. split; [unfold test_conditions; by rewrite Hc|].
    split_and!; try done. eauto.
Qed.

(** C9 (as the code has it): while a task is in [paused_in_syscall], a
    timer callback does not put it into the ready queue (the callback
    aimed at it moves it to [paused_in_ready]), a write to a condition
    variable skips it and leaves its condition entries registered, and
    the exit of a task for which it is registered at most once does not
    put it into the ready queue either (in mode [WAIT_ANY] the
    registration is consumed and the task moves to [paused_in_ready]);
    [resume_task] puts a task of [paused_in_ready] at the front of the
    ready queue. *)
Theorem paused_in_syscall_not_enqueued s t :
  t ∈ paused_in_syscall s →
  (∀ f, occ t (ready (fire f s)) = occ t (ready s) ∧
        (cb_task f = t →
         t ∈ paused_in_ready (fire f s) ∧
         t ∉ paused_in_syscall (fire f s))) ∧
  (∀ name val, cond_wf (cond_waiting s) →
     ∃ s', cv_set name val s = Ok s' ∧
       occ t (ready s') = occ t (ready s) ∧
       t ∈ paused_in_syscall s' ∧
       ∀ v l c, cond_waiting s !! v = Some l → (c, t) ∈ l →
                ∃ l', cond_waiting s' !! v = Some l' ∧ (c, t) ∈ l') ∧
  (∀ x s', (nreg t s x ≤ 1)%nat → exit x s = Ok s' →
     occ t (ready s') = occ t (ready s) ∧
     (nreg t s x = 1%nat → task_waitmode s t = WAIT_ANY →
      t ∈ paused_in_ready s' ∧ (t ∉ paused_in_syscall s') ∧
      nreg t s' x = 0%nat)) ∧
  (∀ s0, t ∈ paused_in_ready s0 →
     (resume_task (Some t) s0).1 = true ∧
     ready (resume_task (Some t) s0).2 = t :: ready s0).
Proof.
  intros Hp. split_and!.
  - intros f. by apply fire_paused.
  - intros name val Hwf. by apply cv_set_paused.
  - intros x s' Hle Hx. split; [by eapply exit_paused|].
    intros Hreg Hmode. by eapply exit_paused_any.
  - intros s0 Hr. unfold resume_task. by rewrite decide_True.
Qed.

(** ** Killing *)

Lemma close_all_eq ks s :
  ∃ M, close_all ks s = set_tasks (λ _, M) s ∧
    ∀ k, M !! k =
         if decide (k ∈ ks)
         then (λ tk, mkTask None (sendval tk) (waitmode tk)) <$> tasks s !! k
         else tasks s !! k.
Proof.
  revert s. induction ks as [|k0 ks IH]; intros s.
  - exists (tasks s). split; [by destruct s|]. intros k.
    by rewrite decide_False by apply not_elem_of_nil.
  - destruct (IH (close k0 s)) as (M & HM & Hlk).
    exists M. split; [exact HM|]. intros k. rewrite Hlk. simpl.
    destruct (decide (k = k0)) as [->|Hne].
    + rewrite lookup_alter_eq.
      rewrite (decide_True (P := k0 ∈ k0 :: ks)) by (by left).
      case_decide; [|done]. by destruct (tasks s !! k0).
    + rewrite lookup_alter_ne by done. apply decide_ext.
      rewrite elem_of_cons. naive_solver.
Qed.

Lemma close_all_taskmap ks s : taskmap (close_all ks s) = taskmap s.
Proof. destruct (close_all_eq ks s) as (M & -> & _). done. Qed.

Lemma kill_each_acc tids acc s :
  foldl (λ acc tid,
           if decide (tid ∈ taskmap acc.2)
           then (acc.1 ++ [tid], close tid acc.2) else acc)
    (acc, s) tids
  = (acc ++ filter (λ k, k ∈ taskmap s) tids,
     close_all (filter (λ k, k ∈ taskmap s) tids) s).
Proof.
  revert acc s. induction tids as [|k tids IH]; intros acc s.
  - simpl. by rewrite app_nil_r.
  - simpl. rewrite filter_cons. case_decide.
    + rewrite IH. simpl. by rewrite <- app_assoc.
    + by rewrite IH.
Qed.

Lemma kill_each_spec tids s :
  kill_each tids s
  = (filter (λ k, k ∈ taskmap s) tids,
     close_all (filter (λ k, k ∈ taskmap s) tids) s).
Proof. apply (kill_each_acc tids [] s). Qed.

Lemma kill_all_except_acc (ex l acc : list nat) s :
  foldl (λ acc tid,
           if decide (tid ∈ ex) then acc
           else (acc.1 ++ [tid], close tid acc.2))
    (acc, s) l
  = (acc ++ filter (λ k, k ∉ ex) l, close_all (filter (λ k, k ∉ ex) l) s).
Proof.
  revert acc s. induction l as [|k l IH]; intros acc s.
  - simpl. by rewrite app_nil_r.
  - simpl. rewrite filter_cons. destruct (decide (k ∈ ex)).
    + rewrite decide_False by tauto. by rewrite IH.
    + rewrite decide_True by done. rewrite IH. simpl.
      by rewrite <- app_assoc.
Qed.

Lemma kill_all_except_spec (ex : list nat) s :
  kill_all_except ex s
  = (filter (λ k, k ∉ ex) (elements (taskmap s)),
     close_all (filter (λ k, k ∉ ex) (elements (taskmap s))) s).
Proof. apply (kill_all_except_acc ex _ [] s). Qed.

(** What a kill request does: it closes its targets and reschedules the
    caller. *)
Lemma handle_kill sc t s ks :
  kill_targets sc s = Some ks →
  ∃ v, handle sc t s = Ok (schedule t (set_sendval t v (close_all ks s))).
Proof.
  destruct sc; try done; simpl; intros [= <-].
  - unfold taskmap_get. rewrite filter_cons, filter_nil.
    case_decide; simpl; eauto.
  - rewrite kill_each_spec. eauto.
  - rewrite kill_all_except_spec. eauto.
Qed.

Lemma task_target_close_all ks s k :
  task_target (close_all ks s) k
  = if decide (k ∈ ks) then None else task_target s k.
Proof.
  destruct (close_all_eq ks s) as (M & -> & Hlk). unfold task_target.
  simpl. rewrite Hlk. case_decide; [|done]. by destruct (tasks s !! k).
Qed.

Lemma task_sendval_close_all ks s k :
  task_sendval (close_all ks s) k = task_sendval s k.
Proof.
  destruct (close_all_eq ks s) as (M & -> & Hlk). unfold task_sendval.
  simpl. rewrite Hlk. case_decide; [|done]. by destruct (tasks s !! k).
Qed.

Lemma task_waitmode_close_all ks s k :
  task_waitmode (close_all ks s) k = task_waitmode s k.
Proof.
  destruct (close_all_eq ks s) as (M & -> & Hlk). unfold task_waitmode.
  simpl. rewrite Hlk. case_decide; [|done]. by destruct (tasks s !! k).
Qed.

(** ** What an exit leaves alone *)

Lemma notify_frame x s w :
  let s' := notify x s w in
  taskmap s' = taskmap s ∧ taskid s' = taskid s ∧
  timer_cb s' = timer_cb s ∧ cond_waiting s' = cond_waiting s ∧
  (∃ W, ready s' = ready s ++ W) ∧
  (∀ u, task_target s' u = task_target s u) ∧
  (∀ u, task_waitmode s' u = task_waitmode s u) ∧
  (∀ u, is_Some (tasks s !! u) → is_Some (tasks s' !! u)).
Proof.
  assert (∀ v a,
    let s' := schedule w (set_sendval w v a) in
    taskmap s' = taskmap a ∧ taskid s' = taskid a ∧
    timer_cb s' = timer_cb a ∧ cond_waiting s' = cond_waiting a ∧
    (∃ W, ready s' = ready a ++ W) ∧
    (∀ u, task_target s' u = task_target a u) ∧
    (∀ u, task_waitmode s' u = task_waitmode a u) ∧
    (∀ u, is_Some (tasks a !! u) → is_Some (tasks s' !! u))) as Hsched.
  { intros v a. unfold schedule, task_target, task_waitmode.
    case_decide; simpl; split_and!; try done.
    - exists []. by rewrite app_nil_r.
    - intros u. rewrite lookup_alter. case_decide; [subst u|done].
      by destruct (tasks a !! w).
    - intros u. rewrite lookup_alter. case_decide; [subst u|done].
      by destruct (tasks a !! w).
    - intros u. rewrite lookup_alter. case_decide; [subst u|done].
      intros [? ->]. by eexists.
    - by eexists.
    - intros u. rewrite lookup_alter. case_decide; [subst u|done].
      by destruct (tasks a !! w).
    - intros u. rewrite lookup_alter. case_decide; [subst u|done].
      by destruct (tasks a !! w).
    - intros u. rewrite lookup_alter. case_decide; [subst u|done].
      intros [? ->]. by eexists. }
  unfold notify. destruct (task_waitmode s w).
  - apply (Hsched (VTid x)
             (set_exit_waiting (drop_waiter w <$> exit_waiting s) s)).
  - destruct (still_waiting w (exit_waiting s)); [|apply Hsched].
    simpl. split_and!; try done. exists []. by rewrite app_nil_r.
Qed.

Lemma exit_frame x s s' :
  exit x s = Ok s' →
  x ∈ taskmap s ∧ taskmap s' = taskmap s ∖ {[x]} ∧ taskid s' = taskid s ∧
  timer_cb s' = timer_cb s ∧ cond_waiting s' = cond_waiting s ∧
  (∃ W, ready s' = ready s ++ W) ∧
  (∀ u, task_target s' u = task_target s u) ∧
  (∀ u, task_waitmode s' u = task_waitmode s u) ∧
  (∀ u, is_Some (tasks s !! u) → is_Some (tasks s' !! u)).
Proof.
  unfold exit. case_decide; [|done]. intros [= <-]. split; [done|].
  set (s2 := set_exit_waiting _ (set_taskmap _ s)).
  assert (let a := foldl (notify x) s2 (default [] (exit_waiting s !! x)) in
    taskmap a = taskmap s2 ∧ taskid a = taskid s2 ∧
    timer_cb a = timer_cb s2 ∧ cond_waiting a = cond_waiting s2 ∧
    (∃ W, ready a = ready s2 ++ W) ∧
    (∀ u, task_target a u = task_target s2 u) ∧
    (∀ u, task_waitmode a u = task_waitmode s2 u) ∧
    (∀ u, is_Some (tasks s2 !! u) → is_Some (tasks a !! u))) as Hfold.
  { apply (foldl_inv (λ a,
      taskmap a = taskmap s2 ∧ taskid a = taskid s2 ∧
      timer_cb a = timer_cb s2 ∧ cond_waiting a = cond_waiting s2 ∧
      (∃ W, ready a = ready s2 ++ W) ∧
      (∀ u, task_target a u = task_target s2 u) ∧
      (∀ u, task_waitmode a u = task_waitmode s2 u) ∧
      (∀ u, is_Some (tasks s2 !! u) → is_Some (tasks a !! u)))).
    - split_and!; try done. exists []. by rewrite app_nil_r.
    - intros a w (I1 & I2 & I3 & I4 & [W I5] & I6 & I7 & I8).
      destruct (notify_frame x a w) as (N1 & N2 & N3 & N4 & [W' N5] & N6 & N7 & N8).
      split_and!; [congruence|congruence|congruence|congruence| | | |].
      + exists (W ++ W'). by rewrite N5, I5, app_assoc.
      + intros u. by rewrite N6.
      + intros u. by rewrite N7.
      + intros u Hu. by apply N8, I8. }
  exact Hfold.
Qed.

(** The exit of [x] for a task [w] registered once as waiting for it in
    mode [WAIT_ANY]: its registrations go and it is scheduled with [x] as
    its resume value. *)
Lemma exit_wait_any w x s s' :
  exit x s = Ok s' →
  nreg w s x = 1%nat →
  task_waitmode s w = WAIT_ANY →
  (∀ k, (nreg w s k ≤ 1)%nat) →
  (∀ k, nreg w s' k = 0%nat) ∧
  (w ∉ paused_in_syscall s → occ w (ready s') = S (occ w (ready s))) ∧
  (is_Some (tasks s !! w) → task_sendval s' w = VTid x).
Proof.
  unfold exit. case_decide; [|done]. intros [= <-] Hreg Hmode Hle.
  destruct (occ_one_split _ _ Hreg) as (ws1 & ws2 & Hws & Hn1 & Hn2).
  simpl. rewrite Hws, foldl_app. simpl.
  set (s2 := set_exit_waiting _ (set_taskmap _ s)).
  set (a := foldl (notify x) s2 ws1).
  assert (same_for w s2 a) as Ha by (by apply notify_all_same_for).
  assert (task_waitmode a w = WAIT_ANY) as Hma
    by (by rewrite (same_for_waitmode _ _ _ Ha)).
  set (b := schedule w (set_sendval w (VTid x)
              (set_exit_waiting (drop_waiter w <$> exit_waiting a) a))).
  assert (notify x a w = b) as Hnt by (unfold notify; by rewrite Hma).
  rewrite Hnt.
  set (c := foldl (notify x) b ws2).
  assert (same_for w b c) as Hc by (by apply notify_all_same_for).
  assert (∀ k, nreg w b k = 0%nat) as Hnb.
  { intros k. unfold b, schedule, nreg. case_decide; simpl;
      rewrite lookup_fmap.
    all: destruct (exit_waiting a !! k) as [l|] eqn:El; simpl; [|done].
    all: assert (nreg w a k ≤ 1)%nat as Hk.
    1,3: destruct Ha as (_ & _ & _ & _ & ->); unfold nreg, s2; simpl;
      destruct (decide (k = x)) as [->|];
      [rewrite lookup_delete_eq; simpl; rewrite occ_nil; lia
      |rewrite lookup_delete_ne by done; apply Hle].
    all: unfold nreg in Hk; rewrite El in Hk; simpl in Hk.
    all: destruct (decide (occ w l = 1%nat));
      [by apply drop_waiter_once|].
    all: rewrite drop_waiter_absent; [lia|apply occ_zero; lia]. }
  split_and!.
  - intros k. rewrite nreg_filter. fold c.
    destruct Hc as (_ & _ & _ & _ & ->). apply Hnb.
  - intros Hp. fold c. destruct Hc as (-> & _).
    assert (w ∉ paused_in_syscall a) as Hpa.
    { destruct Ha as (_ & _ & -> & _). done. }
    unfold b. rewrite schedule_unpaused by done. simpl.
    rewrite occ_app, occ_cons, occ_nil, decide_True by done.
    destruct Ha as (-> & _). simpl. lia.
  - intros Hobj. fold c.
    change (task_sendval c w = VTid x).
    rewrite (same_for_sendval _ _ _ Hc). unfold b, task_sendval.
    rewrite schedule_tasks. simpl. rewrite lookup_alter_eq.
    destruct Ha as (_ & -> & _). simpl. by destruct Hobj as [? ->].
Qed.

Lemma task_target_reschedule t v s k :
  task_target (schedule t (set_sendval t v s)) k = task_target s k.
Proof.
  unfold task_target. rewrite schedule_tasks. simpl. rewrite lookup_alter.
  case_decide; [subst k|done]. by destruct (tasks s !! t).
Qed.

(** C6 (as the code has it): a kill request only closes the body of its
    targets: the exit-wait registry and the task table are as before,
    and nothing changes for the other tasks, so no watcher is woken by
    the request itself.  A killed task stays in the task table until
    [step] runs it again: its closed body then raises [StopIteration],
    [exit] is called as for any finished task, and a watcher waiting for
    it in mode [WAIT_ANY] is scheduled with its id. *)
Theorem kill_defers_exit_notification sc t s ks :
  kill_targets sc s = Some ks →
  ∃ s1, handle sc t s = Ok s1 ∧
    exit_waiting s1 = exit_waiting s ∧
    taskmap s1 = taskmap s ∧
    (∀ k, task_target s1 k
          = if decide (k ∈ ks) then None else task_target s k) ∧
    (∀ w, w ≠ t →
       occ w (ready s1) = occ w (ready s) ∧
       task_sendval s1 w = task_sendval s w ∧
       task_waitmode s1 w = task_waitmode s w ∧
       (w ∈ paused_in_syscall s1 ↔ w ∈ paused_in_syscall s) ∧
       (w ∈ paused_in_ready s1 ↔ w ∈ paused_in_ready s)) ∧
    (∀ s2 k r, task_target s2 k = None → ready s2 = k :: r →
       step_iter s2 = Some (exit k (set_ready r s2))) ∧
    (∀ s2 k w s3,
       exit k s2 = Ok s3 →
       nreg w s2 k = 1%nat → task_waitmode s2 w = WAIT_ANY →
       (∀ j, (nreg w s2 j ≤ 1)%nat) →
       w ∉ paused_in_syscall s2 → is_Some (tasks s2 !! w) →
       occ w (ready s3) = S (occ w (ready s2)) ∧
       task_sendval s3 w = VTid k ∧
       ∀ j, nreg w s3 j = 0%nat).
Proof.
  intros Hk. destruct (handle_kill sc t s ks Hk) as (v & Hh).
  eexists. split; [exact Hh|].
  destruct (close_all_eq ks s) as (M & HM & Hlk).
  split_and!.
  - unfold schedule. rewrite HM. by case_decide.
  - unfold schedule. rewrite HM. by case_decide.
  - intros k. by rewrite task_target_reschedule, task_target_close_all.
  - intros w Hne. assert (t ≠ w) as Hne' by done.
    pose proof (schedule_same_for w t (set_sendval t v (close_all ks s)) Hne')
      as (S1 & S2 & S3 & S4 & _).
    split_and!.
    + rewrite S1. by rewrite HM.
    + unfold task_sendval at 1. rewrite S2. simpl.
      rewrite lookup_alter_ne by done. apply task_sendval_close_all.
    + unfold task_waitmode at 1. rewrite S2. simpl.
      rewrite lookup_alter_ne by done. apply task_waitmode_close_all.
    + rewrite S3. by rewrite HM.
    + rewrite S4. by rewrite HM.
  - intros s2 k r Htg Hr. unfold step_iter. rewrite Hr.
    unfold run_task. change (task_target (set_ready r s2) k)
      with (task_target s2 k). by rewrite Htg.
  - intros s2 k w s3 Hx Hreg Hmode Hle Hp Hobj.
    destruct (exit_wait_any w k s2 s3 Hx Hreg Hmode Hle) as (E1 & E2 & E3).
    split_and!; [by apply E2|by apply E3|done].
Qed.

(** ** kill-all-except and the drain that follows *)

Lemma exit_Ok x s : x ∈ taskmap s → ∃ s', exit x s = Ok s'.
Proof. intros Hx. unfold exit. rewrite decide_True by done. eauto. Qed.

(** Running a queue of closed tasks: each one exits and leaves the task
    table; what the notifications schedule comes behind, and the other
    tasks of the table stay in it. *)
Lemma drain_closed R a Q :
  NoDup R →
  ready a = R ++ Q →
  (∀ k, k ∈ R → k ∈ taskmap a ∧ task_target a k = None) →
  ∃ a' W, steps (length R) a = Ok a' ∧
    ready a' = Q ++ W ∧
    taskmap a' = taskmap a ∖ list_to_set R ∧
    (∀ k, task_target a' k = task_target a k) ∧
    (∀ k, is_Some (tasks a !! k) → is_Some (tasks a' !! k)).
Proof.
  revert a Q. induction R as [|k R IH]; intros a Q Hnd Hr Hcl.
  - exists a, []. simpl in *. rewrite app_nil_r.
    split_and!; try done. set_solver.
  - apply NoDup_cons in Hnd as [Hk Hnd].
    destruct (Hcl k) as [Hin Htg]; [by left|].
    simpl. unfold step_iter. rewrite Hr. simpl.
    unfold run_task.
    change (task_target (set_ready (R ++ Q) a) k) with (task_target a k).
    rewrite Htg.
    destruct (exit_Ok k (set_ready (R ++ Q) a)) as [a1 Ha1]; [done|].
    rewrite Ha1. simpl.
    destruct (exit_frame _ _ _ Ha1)
      as (_ & F1 & _ & _ & _ & [W1 F2] & F3 & _ & F4).
    simpl in F1, F2.
    destruct (IH a1 (Q ++ W1)) as (a' & W' & Hs & Hr' & Htm' & Htg' & Hobj);
      [done| | |].
    + rewrite F2. by rewrite <- app_assoc.
    + intros j Hj. destruct (Hcl j) as [Hjin Hjtg]; [by right|].
      split.
      * rewrite F1. apply elem_of_difference. split; [done|].
        rewrite elem_of_singleton. intros ->. done.
      * by rewrite F3.
    + exists a', (W1 ++ W'). split_and!; try done.
      * rewrite Hr'. by rewrite <- app_assoc.
      * rewrite Htm', F1. set_solver.
      * intros j. by rewrite Htg', F3.
      * intros j Ho. apply Hobj. by apply F4.
Qed.

(** What [GetTids] answers. *)
Lemma GetTids_lists t a :
  is_Some (tasks a !! t) →
  ∃ a', handle GetTids t a = Ok a' ∧
        task_sendval a' t = VTids (elements (taskmap a)).
Proof.
  intros Hobj. eexists. split; [done|].
  unfold task_sendval. rewrite schedule_tasks.
  by apply (task_sendval_set t (VTids (elements (taskmap a))) a).
Qed.

(** C3 (as the code has it): [KillAllTasksExcept] with the exception set
    [{e}] closes the body of every other task of the task table (the
    caller's own when the caller is not [e]) and leaves the task table as
    it is; a closed task leaves the table when [step] runs it: closed
    tasks at the front of the ready queue leave the table one by one, and
    every other task of the table stays in it.  So, when the tasks of the
    ready queue are tasks of the table other than [e], the turns of the
    queue leave in the table exactly the tasks that were not in the
    queue, closed or not, and [GetTids] lists them all.  When every task
    but the caller and [e] was in the ready queue, the table then holds
    [e] alone, once the caller too has been run if it is not [e], and
    [GetTids] returns that id only. *)
Theorem kill_all_except_round_trip s c e :
  c ∉ paused_in_syscall s →
  is_Some (tasks s !! c) →
  ∃ s1 ks,
    handle (KillAllTasksExcept [e]) c s = Ok s1 ∧
    task_sendval s1 c = VTasks ks ∧
    NoDup ks ∧
    (∀ k, k ∈ ks ↔ k ∈ taskmap s ∧ k ≠ e) ∧
    taskmap s1 = taskmap s ∧
    (∀ k, task_target s1 k
          = if decide (k ∈ taskmap s ∧ k ≠ e) then None
            else task_target s k) ∧
    ready s1 = ready s ++ [c] ∧
    (∀ a R Q,
       NoDup R → ready a = R ++ Q →
       (∀ k, k ∈ R → k ∈ taskmap a ∧ task_target a k = None) →
       ∃ a' W, steps (length R) a = Ok a' ∧
         ready a' = Q ++ W ∧
         taskmap a' = taskmap a ∖ list_to_set R ∧
         ∀ k, task_target a' k = task_target a k) ∧
    (NoDup (ready s) →
     (∀ k, k ∈ ready s → k ∈ taskmap s ∧ k ≠ e ∧ k ≠ c) →
     ∃ s2 W,
       steps (length (ready s)) s1 = Ok s2 ∧
       ready s2 = c :: W ∧
       taskmap s2 = taskmap s ∖ list_to_set (ready s) ∧
       (∀ k, task_target s2 k = task_target s1 k) ∧
       (∀ t r, is_Some (tasks s !! t) →
          ∃ s3 l, handle GetTids t (set_ready r s2) = Ok s3 ∧
            task_sendval s3 t = VTids l ∧ NoDup l ∧
            ∀ k, k ∈ l ↔ k ∈ taskmap s ∧ k ∉ ready s) ∧
       (c = e → taskmap s = {[c]} ∪ list_to_set (ready s) →
          taskmap s2 = {[c]} ∧
          ∃ s3, handle GetTids c (set_ready W s2) = Ok s3 ∧
                task_sendval s3 c = VTids [c]) ∧
       (c ≠ e → taskmap s = {[c; e]} ∪ list_to_set (ready s) →
          ∃ s4 W', steps 1 s2 = Ok s4 ∧
            ready s4 = W ++ W' ∧
            taskmap s4 = {[e]} ∧
            ∀ t r, is_Some (tasks s !! t) →
              ∃ s5, handle GetTids t (set_ready r s4) = Ok s5 ∧
                    task_sendval s5 t = VTids [e])).
Proof.
  intros Hp Hobj.
  set (ks := filter (λ k, k ∉ [e]) (elements (taskmap s))).
  set (s1 := schedule c (set_sendval c (VTasks ks) (close_all ks s))).
  assert (handle (KillAllTasksExcept [e]) c s = Ok s1) as Hh.
  { simpl. by rewrite kill_all_except_spec. }
  destruct (close_all_eq ks s) as (M & HM & Hlk).
  assert (s1 = set_ready (ready s ++ [c])
                 (set_sendval c (VTasks ks) (close_all ks s))) as Hs1.
  { unfold s1. rewrite schedule_unpaused; rewrite HM; done. }
  assert (∀ k, k ∈ ks ↔ k ∈ taskmap s ∧ k ≠ e) as Hks.
  { intros k. unfold ks. rewrite list_elem_of_filter, elem_of_elements.
    rewrite list_elem_of_singleton. tauto. }
  assert (∀ k, task_target s1 k
               = if decide (k ∈ taskmap s ∧ k ≠ e) then None
                 else task_target s k) as Htg.
  { intros k. unfold s1.
    rewrite task_target_reschedule, task_target_close_all.
    apply decide_ext, Hks. }
  assert (taskmap s1 = taskmap s) as Htm1 by (rewrite Hs1, HM; done).
  assert (ready s1 = ready s ++ [c]) as Hr1 by (by rewrite Hs1).
  assert (∀ k, is_Some (tasks s !! k) → is_Some (tasks s1 !! k)) as Hobj1.
  { intros k [tk Hk]. rewrite Hs1, HM. simpl.
    apply lookup_alter_is_Some. rewrite Hlk, Hk.
    case_decide; by eexists. }
  exists s1, ks. split_and!; try done.
  - rewrite Hs1. apply task_sendval_set. rewrite HM. simpl. rewrite Hlk.
    destruct Hobj as [tk ->]. case_decide; by eexists.
  - unfold ks. apply NoDup_filter, NoDup_elements.
  - intros a R Q Hnd Hr Hcl.
    destruct (drain_closed R a Q Hnd Hr Hcl)
      as (a' & W & D1 & D2 & D3 & D4 & _).
    by exists a', W.
  - intros Hnd Hready.
    destruct (drain_closed (ready s) s1 [c] Hnd Hr1)
      as (s2 & W & D1 & D2 & D3 & D4 & D5).
    { intros k Hk. destruct (Hready k Hk) as (K1 & K2 & _).
      split; [by rewrite Htm1|]. rewrite Htg. by rewrite decide_True. }
    rewrite Htm1 in D3.
    assert (∀ t r, is_Some (tasks s !! t) →
              ∃ s3, handle GetTids t (set_ready r s2) = Ok s3 ∧
                    task_sendval s3 t = VTids (elements (taskmap s2)))
      as Hget.
    { intros t r Ht. apply (GetTids_lists t (set_ready r s2)).
      simpl. by apply D5, Hobj1. }
    exists s2, W. split_and!; try done.
    + intros t r Ht. destruct (Hget t r Ht) as (s3 & G1 & G2).
      exists s3, (elements (taskmap s2)). split_and!; try done.
      * apply NoDup_elements.
      * intros k. rewrite elem_of_elements, D3, elem_of_difference.
        by rewrite elem_of_list_to_set.
    + intros -> Htm.
      assert (taskmap s2 = {[e]}) as Hone.
      { rewrite D3, Htm. apply set_eq. intros k.
        rewrite elem_of_difference, elem_of_union, elem_of_list_to_set.
        rewrite elem_of_singleton. split; [tauto|].
        intros ->. split; [by left|]. intros Hin.
        by destruct (Hready e Hin) as (_ & _ & ?). }
      split; [done|].
      destruct (Hget e W Hobj) as (s3 & G1 & G2).
      exists s3. split; [done|]. by rewrite G2, Hone, elements_singleton.
    + intros Hne Htm.
      assert (c ∈ taskmap s2) as Hc2.
      { rewrite D3, Htm. apply elem_of_difference. split; [set_solver|].
        rewrite elem_of_list_to_set. intros Hin.
        by destruct (Hready c Hin) as (_ & _ & ?). }
      destruct (drain_closed [c] s2 W) as (s4 & W' & E1 & E2 & E3 & E4 & E5).
      { apply NoDup_singleton. }
      { done. }
      { intros k Hk. apply list_elem_of_singleton in Hk as ->.
        split; [done|]. rewrite D4, Htg. rewrite decide_True; [done|].
        split; [|done]. rewrite Htm. set_solver. }
      assert (taskmap s4 = {[e]}) as Hone.
      { rewrite E3, D3, Htm. apply set_eq. intros k.
        rewrite !elem_of_difference, !elem_of_union, !elem_of_list_to_set.
        rewrite list_elem_of_singleton, !elem_of_singleton.
        split.
        - intros [[[[->| ->]|Hin] Hnin] Hkc]; done.
        - intros ->. split_and!; [left; by right| |done].
          intros Hin. by destruct (Hready e Hin) as (_ & ? & _). }
      exists s4, W'. split_and!; try done.
      intros t r Ht.
      destruct (GetTids_lists t (set_ready r s4)) as (s5 & G1 & G2).
      { simpl. by apply E5, D5, Hobj1. }
      exists s5. split; [done|]. rewrite G2. simpl.
      by rewrite Hone, elements_singleton.
Qed.

(** ** A task that nothing can wake *)

Lemma foldl_inv_elem {A B} (P : A → Prop) (f : A → B → A) l a :
  P a → (∀ a b, b ∈ l → P a → P (f a b)) → P (foldl f a l).
Proof.
  revert a. induction l as [|b l IH]; intros a Ha Hf; [done|].
  simpl. apply IH.
  - apply Hf; [by left|done].
  - intros a' b' Hb'. apply Hf. by right.
Qed.

Lemma nw_schedule t u s :
  u ≠ t → no_wakeup_for t s → no_wakeup_for t (schedule u s).
Proof.
  intros Hne (Hr & Hpr & Hid & Htm & Htc & Hcw & Hew).
  unfold schedule, no_wakeup_for. case_decide; simpl; split_and!; try done.
  - set_solver.
  - set_solver.
Qed.

Lemma nw_schedule_now t u s :
  u ≠ t → no_wakeup_for t s → no_wakeup_for t (schedule_now u s).
Proof.
  intros Hne (Hr & Hpr & Hid & Htm & Htc & Hcw & Hew).
  unfold schedule_now, no_wakeup_for.
  case_decide; simpl; split_and!; try done.
  - set_solver.
  - set_solver.
Qed.

Lemma nw_set_tasks t f s :
  no_wakeup_for t s → no_wakeup_for t (set_tasks f s).
Proof. done. Qed.

Lemma nw_close_all t ks s :
  no_wakeup_for t s → no_wakeup_for t (close_all ks s).
Proof. destruct (close_all_eq ks s) as (M & -> & _). done. Qed.

Lemma nw_wait_for_exit t u k s :
  u ≠ t → no_wakeup_for t s → no_wakeup_for t (wait_for_exit u k s).2.
Proof.
  intros Hne (Hr & Hpr & Hid & Htm & Htc & Hcw & Hew).
  unfold wait_for_exit. case_decide; [|done]. simpl.
  unfold no_wakeup_for. simpl. split_and!; try done.
  intros k' l'. rewrite lookup_insert. case_decide as Hk.
  - subst k'. intros [= <-] Hin. apply elem_of_app in Hin as [Hin|Hin].
    + destruct (exit_waiting s !! k) as [l|] eqn:El; simpl in Hin.
      * by apply (Hew k l).
      * by apply elem_of_nil in Hin.
    + apply list_elem_of_singleton in Hin. congruence.
  - apply Hew.
Qed.

Lemma nw_pause_task t o s :
  no_wakeup_for t s → no_wakeup_for t (pause_task o s).2.
Proof.
  intros (Hr & Hpr & Hid & Htm & Htc & Hcw & Hew).
  unfold pause_task. destruct o as [u|]; [|done].
  case_decide; [done|].
  destruct (list_remove u (ready s)) as [r|] eqn:E; simpl.
  - assert (u ≠ t) as Hne.
    { intros ->. by rewrite list_remove_None in E. }
    unfold no_wakeup_for. simpl. split_and!; try done.
    + intros Hin. apply Hr. by eapply list_remove_sub.
    + set_solver.
  - unfold no_wakeup_for. simpl. split_and!; done.
Qed.

Lemma nw_resume_task t o s :
  no_wakeup_for t s → no_wakeup_for t (resume_task o s).2.
Proof.
  intros (Hr & Hpr & Hid & Htm & Htc & Hcw & Hew).
  unfold resume_task. destruct o as [u|]; [|done].
  repeat case_decide; simpl; unfold no_wakeup_for; simpl;
    split_and!; try done; set_solver.
Qed.

Lemma nw_new t g s : no_wakeup_for t s → no_wakeup_for t (new g s).2.
Proof.
  intros (Hr & Hpr & Hid & Htm & Htc & Hcw & Hew).
  unfold new. simpl. apply nw_schedule; [lia|].
  unfold no_wakeup_for. simpl. split_and!; try done; [lia|set_solver].
Qed.

Lemma nw_set_timer_callback t d f s :
  cb_task f ≠ t → no_wakeup_for t s →
  no_wakeup_for t (set_timer_callback d f s).
Proof.
  intros Hne (Hr & Hpr & Hid & Htm & Htc & Hcw & Hew).
  unfold no_wakeup_for, set_timer_callback, heappush. simpl.
  split_and!; try done. by constructor.
Qed.

Lemma nw_add_condition t c u s :
  u ≠ t → no_wakeup_for t s → no_wakeup_for t (_add_condition (c, u) s).
Proof.
  intros Hne (Hr & Hpr & Hid & Htm & Htc & Hcw & Hew).
  unfold no_wakeup_for, _add_condition. simpl. split_and!; try done.
  apply (foldl_inv (map_Forall (λ _ l, Forall (λ e, e.2 ≠ t) l))); [done|].
  intros m v Hm k l. rewrite lookup_insert. case_decide as Hk; [|apply Hm].
  intros [= <-]. apply Forall_app. split; [|by constructor].
  destruct (m !! v) as [l|] eqn:El; simpl; [by apply (Hm v l)|constructor].
Qed.

Lemma nw_wait_condition t u c s :
  u ≠ t → no_wakeup_for t s → no_wakeup_for t (wait_condition u c s).
Proof.
  intros Hne Hs. unfold wait_condition. destruct (call c (cvars s)).
  - by apply nw_schedule_now.
  - by apply nw_add_condition.
Qed.

Lemma nw_fire t f s :
  cb_task f ≠ t → no_wakeup_for t s → no_wakeup_for t (fire f s).
Proof.
  intros Hne Hs. destruct f; simpl in *; by apply nw_schedule_now.
Qed.

Lemma nw_Rate_sleep t rate u s r :
  u ≠ t → no_wakeup_for t s → Rate_sleep rate u s = Ok r →
  no_wakeup_for t r.2.
Proof.
  intros Hne Hs. unfold Rate_sleep. destruct (rates s !! rate); [|done].
  case_match; intros [= <-]; simpl.
  - by apply nw_set_timer_callback.
  - by apply nw_schedule.
Qed.

Lemma nw_handle t sc u s s' :
  u ≠ t → no_wakeup_for t s → handle sc u s = Ok s' → no_wakeup_for t s'.
Proof.
  intros Hne Hs. destruct sc; simpl.
  - by intros [= <-].
  - intros [= <-]. by apply nw_schedule.
  - intros [= <-]. by apply nw_schedule.
  - intros [= <-]. by apply nw_schedule.
  - intros [= <-]. apply nw_schedule; [done|]. apply nw_set_tasks.
    by apply nw_new.
  - destruct (taskmap_get s tid); intros [= <-]; by apply nw_schedule.
  - intros [= <-]. apply nw_schedule; [done|]. apply nw_set_tasks.
    rewrite kill_each_spec. by apply nw_close_all.
  - intros [= <-]. apply nw_schedule; [done|]. apply nw_set_tasks.
    rewrite kill_all_except_spec. by apply nw_close_all.
  - assert (no_wakeup_for t (wait_for_exit u tid s).2) as Hw
      by (by apply nw_wait_for_exit).
    intros [= <-]. destruct (wait_for_exit u tid s).1; [done|].
    by apply nw_schedule.
  - destruct (first_missing tids _); intros [= <-].
    + by apply nw_schedule.
    + apply (foldl_inv (no_wakeup_for t)); [done|].
      intros a k Ha. by apply nw_wait_for_exit.
  - assert (no_wakeup_for t (wait_each u tids (set_waitmode u WAIT_ALL s)).2)
      as Hw.
    { apply (foldl_inv (λ a, no_wakeup_for t a.2)); [done|].
      intros a k Ha. simpl. by apply nw_wait_for_exit. }
    destruct (wait_each u tids _).1; intros [= <-]; [done|].
    by apply nw_schedule.
  - intros [= <-]. apply nw_schedule; [done|]. apply nw_set_tasks.
    by apply nw_pause_task.
  - intros [= <-]. apply nw_schedule; [done|]. apply nw_set_tasks.
    apply (foldl_inv (λ a, no_wakeup_for t a.2)); [done|].
    intros a k Ha. simpl. by apply nw_pause_task.
  - intros [= <-]. apply nw_schedule; [done|]. apply nw_set_tasks.
    by apply nw_resume_task.
  - intros [= <-]. apply nw_schedule; [done|]. apply nw_set_tasks.
    apply (foldl_inv (λ a, no_wakeup_for t a.2)); [done|].
    intros a k Ha. simpl. by apply nw_resume_task.
  - intros [= <-]. by apply nw_schedule.
  - intros [= <-]. apply nw_set_tasks. by apply nw_set_timer_callback.
  - intros [= <-]. apply nw_set_tasks. by apply nw_wait_condition.
  - intros [= <-]. by apply nw_schedule.
  - destruct (Rate_sleep rate u s) as [r| |] eqn:E; simpl; [|done..].
    intros [= <-]. apply nw_set_tasks. by eapply nw_Rate_sleep.
  - intros [= <-]. by apply nw_schedule.
Qed.

Lemma nw_notify t x s w :
  w ≠ t → no_wakeup_for t s → no_wakeup_for t (notify x s w).
Proof.
  intros Hne Hs. unfold notify. destruct (task_waitmode s w).
  - apply nw_schedule; [done|]. apply nw_set_tasks.
    destruct Hs as (Hr & Hpr & Hid & Htm & Htc & Hcw & Hew).
    unfold no_wakeup_for. simpl. split_and!; try done.
    intros k l. rewrite lookup_fmap.
    destruct (exit_waiting s !! k) as [l0|] eqn:El; simpl; [|done].
    intros [= <-] Hin. apply (Hew k l0 El).
    apply occ_pos. apply occ_pos in Hin.
    by rewrite drop_waiter_occ in Hin.
  - destruct (still_waiting w (exit_waiting s)); [done|].
    by apply nw_schedule.
Qed.

Lemma nw_exit t x s s' :
  x ≠ t → no_wakeup_for t s → exit x s = Ok s' → no_wakeup_for t s'.
Proof.
  intros Hne Hs. unfold exit. case_decide; [|done]. intros [= <-].
  set (ws := default [] (exit_waiting s !! x)).
  set (s2 := set_exit_waiting _ (set_taskmap _ s)).
  assert (t ∉ ws) as Hws.
  { destruct Hs as (_ & _ & _ & _ & _ & _ & Hew). unfold ws.
    destruct (exit_waiting s !! x) as [l|] eqn:El; simpl.
    - intros Hin. by specialize (Hew x l El Hin).
    - apply not_elem_of_nil. }
  assert (no_wakeup_for t s2) as H2.
  { destruct Hs as (Hr & Hpr & Hid & Htm & Htc & Hcw & Hew).
    unfold no_wakeup_for, s2. simpl. split_and!; try done; [set_solver|].
    by apply map_Forall_delete. }
  assert (no_wakeup_for t (foldl (notify x) s2 ws)) as H3.
  { apply (foldl_inv_elem (no_wakeup_for t)); [done|].
    intros a w Hw Ha. apply nw_notify; [|done]. intros ->. done. }
  destruct H3 as (Hr & Hpr & Hid & Htm & Htc & Hcw & Hew).
  unfold no_wakeup_for. simpl. split_and!; try done.
  intros k l Hl. apply map_lookup_filter_Some in Hl as [Hl _].
  by apply Hew.
Qed.

Lemma nw_run_task t u s s' :
  u ≠ t → no_wakeup_for t s → run_task u s = Ok s' → no_wakeup_for t s'.
Proof.
  intros Hne Hs. unfold run_task. destruct (task_target s u) as [g|].
  - destruct (send g _) as [| |[sc|] g'].
    + apply nw_exit; [done|]. by apply nw_set_tasks.
    + done.
    + apply nw_handle; [done|]. by apply nw_set_tasks.
    + intros [= <-]. apply nw_schedule; [done|]. by apply nw_set_tasks.
  - by apply nw_exit.
Qed.

Lemma nw_step_iter t s r s' :
  no_wakeup_for t s → step_iter s = Some r → r = Ok s' →
  no_wakeup_for t s'.
Proof.
  intros Hs. unfold step_iter. destruct (ready s) as [|u rest] eqn:Hr;
    [done|]. intros [= <-] Hrun.
  assert (u ≠ t ∧ t ∉ rest) as [Hne Hrest].
  { destruct Hs as (Hnr & _). rewrite Hr in Hnr.
    apply not_elem_of_cons in Hnr as [? ?]. by split. }
  apply (nw_run_task t u (set_ready rest s)); [done| |done].
  destruct Hs as (_ & Hpr & Hid & Htm & Htc & Hcw & Hew).
  unfold no_wakeup_for. simpl. by split_and!.
Qed.

Lemma nw_step t fuel s s' :
  no_wakeup_for t s → step fuel s = Ok s' → no_wakeup_for t s'.
Proof.
  revert s. induction fuel as [|n IH]; intros s Hs; simpl.
  - destruct (step_iter s); [done|]. by intros [= <-].
  - destruct (step_iter s) as [r|] eqn:E; [|by intros [= <-]].
    destruct r as [s1| |] eqn:Er; simpl; [|done..].
    apply IH. by apply (nw_step_iter t s (Ok s1) s1).
Qed.

Lemma nw_del_condition t cand s s' :
  no_wakeup_for t s → _del_condition cand s = Ok s' → no_wakeup_for t s'.
Proof.
  intros (Hr & Hpr & Hid & Htm & Htc & Hcw & Hew). unfold _del_condition.
  assert (∀ vs m m',
            map_Forall (λ _ l, Forall (λ e : condition * nat, e.2 ≠ t) l) m →
            foldlM (del_from cand) m vs = Ok m' →
            map_Forall (λ _ l, Forall (λ e : condition * nat, e.2 ≠ t) l) m')
    as Hfold.
  { induction vs as [|v vs IH]; intros m m' Hm; simpl.
    - by intros [= <-].
    - destruct (del_from cand m v) as [m1| |] eqn:E; simpl; [|done..].
      apply IH. unfold del_from in E.
      destruct (m !! v) as [l|] eqn:El; [|by injection E as <-].
      destruct (list_remove cand l) as [r|] eqn:Er; [|done].
      assert (Forall (λ e : condition * nat, e.2 ≠ t) r) as Hfr.
      { apply Forall_forall. intros e He.
        pose proof (Hm v l El) as Hl. rewrite Forall_forall in Hl.
        apply Hl. by eapply list_remove_sub. }
      destruct r as [|e r]; injection E as <-.
      + by apply map_Forall_delete.
      + by apply map_Forall_insert_2. }
  destruct (foldlM (del_from cand) (cond_waiting s) (co_names cand.1))
    as [m'| |] eqn:E; simpl; [|done..].
  intros [= <-]. unfold no_wakeup_for. simpl. split_and!; try done.
  by eapply Hfold.
Qed.

Lemma nw_test_conditions t name s s' :
  no_wakeup_for t s → test_conditions name s = Ok s' → no_wakeup_for t s'.
Proof.
  intros Hs. unfold test_conditions.
  destruct (cond_waiting s !! name) as [cands|] eqn:Hc;
    [|by intros [= <-]].
  assert (Forall (λ e : condition * nat, e.2 ≠ t) cands) as Hcands.
  { destruct Hs as (_ & _ & _ & _ & _ & Hcw & _). by apply (Hcw name). }
  clear Hc. revert s Hs. induction cands as [|c cands IH]; intros s Hs; simpl.
  - by intros [= <-].
  - apply Forall_cons in Hcands as [Hc Hcands].
    destruct (test_candidate s c) as [s1| |] eqn:E; simpl; [|done..].
    apply IH; [done|]. unfold test_candidate in E.
    destruct (wakes s c); [|by injection E as <-].
    eapply nw_del_condition; [|exact E]. by apply nw_schedule.
Qed.

Lemma nw_cv_set t name val s s' :
  no_wakeup_for t s → cv_set name val s = Ok s' → no_wakeup_for t s'.
Proof. intros Hs. unfold cv_set. by apply nw_test_conditions. Qed.

Lemma nw_heappop t s e rest :
  no_wakeup_for t s → heappop (timer_cb s) = Some (e, rest) →
  cb_task (entry_cb e) ≠ t ∧
  no_wakeup_for t (set_timers rest (timer_counter s) s).
Proof.
  intros (Hr & Hpr & Hid & Htm & Htc & Hcw & Hew) Hpop.
  destruct (heappop_spec _ _ _ Hpop) as [Hperm _].
  rewrite Hperm in Htc. apply Forall_cons in Htc as [He Hrest].
  split; [done|]. unfold no_wakeup_for. simpl. by split_and!.
Qed.

Lemma nw_fire_next t s s' :
  no_wakeup_for t s → fire_next s = Ok s' → no_wakeup_for t s'.
Proof.
  intros Hs. unfold fire_next.
  destruct (heappop (timer_cb s)) as [[e rest]|] eqn:Hpop; [|done].
  destruct (nw_heappop t s e rest Hs Hpop) as [He Hs2].
  intros [= <-]. apply nw_fire; [done|]. by case_match.
Qed.

Lemma nw_fire_due t n s s' :
  no_wakeup_for t s → fire_due n s = Ok s' → no_wakeup_for t s'.
Proof.
  revert s. induction n as [|n IH]; intros s Hs; simpl.
  - destruct (heappop (timer_cb s)) as [[e rest]|] eqn:Hpop;
      [|by intros [= <-]].
    case_match; [done|]. intros [= <-].
    destruct Hs as (Hr & Hpr & Hid & Htm & Htc & Hcw & Hew).
    destruct (heappop_spec _ _ _ Hpop) as [Hperm _].
    unfold no_wakeup_for, heappush. simpl. split_and!; try done.
    by rewrite <- Hperm.
  - destruct (heappop (timer_cb s)) as [[e rest]|] eqn:Hpop;
      [|by intros [= <-]].
    destruct (nw_heappop t s e rest Hs Hpop) as [He Hs2].
    case_match.
    + apply IH. by apply nw_fire.
    + intros [= <-].
      destruct Hs as (Hr & Hpr & Hid & Htm & Htc & Hcw & Hew).
      destruct (heappop_spec _ _ _ Hpop) as [Hperm _].
      unfold no_wakeup_for, heappush. simpl. split_and!; try done.
      by rewrite <- Hperm.
Qed.

Lemma nw_timer_step t sf s s' :
  no_wakeup_for t s → timer_step sf s = Ok s' → no_wakeup_for t s'.
Proof.
  intros Hs. unfold timer_step.
  destruct (fire_due _ s) as [s1| |] eqn:E; simpl; [|done..].
  apply nw_step. by eapply nw_fire_due.
Qed.

Lemma nw_run_iter t sf s s' :
  no_wakeup_for t s → run_iter sf s = Ok s' → no_wakeup_for t s'.
Proof.
  intros Hs. unfold run_iter.
  destruct (step sf s) as [s1| |] eqn:E1; simpl; [|done..].
  destruct (fire_next s1) as [s2| |] eqn:E2; simpl; [|done..].
  apply nw_step. eapply nw_fire_next; [|exact E2]. by eapply nw_step.
Qed.

Lemma nw_run t sf fuel s s' :
  no_wakeup_for t s → run sf fuel s = Ok s' → no_wakeup_for t s'.
Proof.
  revert s. induction fuel as [|n IH]; intros s Hs; simpl.
  - destruct (run_pending s); [done|]. by intros [= <-].
  - destruct (run_pending s); [|by intros [= <-]].
    destruct (run_iter sf s) as [s1| |] eqn:E; simpl; [|done..].
    apply IH. by eapply nw_run_iter.
Qed.

Lemma nw_do_op t o s s' :
  no_wakeup_for t s → do_op s o = Ok s' → no_wakeup_for t s'.
Proof.
  intros Hs. destruct o; simpl.
  - intros [= <-]. by apply nw_new.
  - intros [= <-]. unfold kill_task. by destruct (taskmap_get s tid).
  - destruct (step_iter s) as [r|] eqn:E; [|by intros [= <-]].
    intros ->. by eapply nw_step_iter.
  - by apply nw_step.
  - by apply nw_fire_next.
  - by apply nw_run.
  - by apply nw_timer_step.
  - by apply nw_cv_set.
  - by intros [= <-].
Qed.

Lemma nw_exec t ops s s' :
  no_wakeup_for t s → exec ops s = Ok s' → no_wakeup_for t s'.
Proof.
  revert s. induction ops as [|o ops IH]; intros s Hs; unfold exec; simpl.
  - by intros [= <-].
  - destruct (do_op s o) as [s1| |] eqn:E; simpl; [|done..].
    apply IH. by eapply nw_do_op.
Qed.

(** C10: a task that asks to wait for its own exit is registered (its id
    is in the task table, so the resume value is [True]) and left out of
    the ready queue; whatever the program then does with the scheduler,
    the task is never in the ready queue again and never leaves the task
    table. *)
Theorem WaitTask_self_parks_forever s t :
  is_Some (tasks s !! t) →
  no_wakeup_for t s →
  ∃ s1, handle (WaitTask t) t s = Ok s1 ∧
    task_sendval s1 t = VBool true ∧
    task_waitmode s1 t = WAIT_ANY ∧
    t ∈ default [] (exit_waiting s1 !! t) ∧
    ready s1 = ready s ∧
    ∀ ops s2, exec ops s1 = Ok s2 →
      (t ∉ ready s2) ∧ (t ∉ paused_in_ready s2) ∧ t ∈ taskmap s2.
Proof.
  intros [tk Htk] Hs.
  assert (t ∈ taskmap s) as Htm by (by destruct Hs as (_ & _ & _ & ? & _)).
  set (s0 := set_exit_waiting
               (<[t := default [] (exit_waiting s !! t) ++ [t]]>
                  (exit_waiting s)) s).
  set (s1 := set_waitmode t WAIT_ANY (set_sendval t (VBool true) s0)).
  assert (handle (WaitTask t) t s = Ok s1) as Hh.
  { simpl. by rewrite wait_for_exit_present. }
  exists s1. split_and!; try done.
  - unfold task_sendval. simpl. by rewrite !lookup_alter_eq, Htk.
  - unfold task_waitmode. simpl. by rewrite !lookup_alter_eq, Htk.
  - simpl. rewrite lookup_insert_eq. simpl. set_solver.
  - intros ops s2 Hex.
    assert (no_wakeup_for t s1) as Hs1.
    { destruct Hs as (Hr & Hpr & Hid & _ & Htc & Hcw & Hew).
      unfold no_wakeup_for. simpl. split_and!; try done.
      intros k l. rewrite lookup_insert. case_decide; [done|]. apply Hew. }
    destruct (nw_exec t ops s1 s2 Hs1 Hex) as (? & ? & _ & ? & _).
    done.
Qed.

End Proofs.

(** ** Examples *)

Import Script.

Lemma first_running_unregistered t k : nreg t first_running k = 0%nat.
Proof.
  unfold nreg.
  assert (exit_waiting first_running = ∅) as -> by (by vm_compute).
  by rewrite lookup_empty.
Qed.

Lemma run_no_timer_IndexError_witness :
  run 5 3 cond_parked = Raise IndexError.
Proof.
  apply (run_no_timer_IndexError 5 2 cond_parked).
  - reflexivity.
  - reflexivity.
  - intros Heq. apply (f_equal (λ m, m !! "x"%string)) in Heq.
    vm_compute in Heq. discriminate.
Defined.

(** Task 1 sleeps on its rate 15 ticks late while task 2 is ready: it is
    put behind task 2, not in front of it. *)
Lemma Rate_sleep_back_of_queue :
  ready rate_late = [1%nat; 2%nat] ∧
  ∃ s', do_op rate_late OpIter = Ok s' ∧
        task_sendval s' 1 = VTime (-15) ∧
        ready s' = [2%nat; 1%nat].
Proof.
  split; [by vm_compute|].
  eexists. split; [by vm_compute|]. split; by vm_compute.
Qed.



Lemma Rate_sleep_spec_witness :
  Rate_sleep 0 1 rate_late = Ok (-15, schedule 1 rate_late).
Proof.
  destruct (Rate_sleep_spec rate_late 0 1 (mkRate 10 0)) as [Hlate _].
  - by vm_compute.
  - apply Hlate. by vm_compute.
Defined.

(** Task 3 was killed while it was ready: when [step] runs it, it exits
    and its watcher, task 1, is woken with the id 3. *)
Lemma kill_then_step_notifies :
  ready killed_ready = [3%nat; 2%nat] ∧
  exit_waiting killed_ready !! 3%nat = Some [1%nat] ∧
  task_target killed_ready 3 = None ∧
  ∃ s', do_op killed_ready OpIter = Ok s' ∧
        ready s' = [2%nat; 1%nat] ∧
        task_sendval s' 1 = VTid 3 ∧
        exit_waiting s' !! 3%nat = None.
Proof.
  split; [by vm_compute|]. split; [by vm_compute|]. split; [by vm_compute|].
  eexists. split; [by vm_compute|]. split; [by vm_compute|].
  split; by vm_compute.
Qed.

(** Task 1 was parked on a condition when task 2 killed every task but
    itself: task 1 is still in the task table, and the list of ids that
    task 2 gets next holds both ids. *)
Lemma kill_all_except_keeps_parked :
  1%nat ∈ taskmap killed_parked ∧
  (1%nat ∉ ready killed_parked) ∧
  task_target killed_parked 1 = None ∧
  ∃ l, task_sendval killed_parked 2 = VTids l ∧ l ≡ₚ [1; 2]%nat.
Proof.
  split; [by_compute|]. split; [by_compute|]. split; [by vm_compute|].
  eexists. split; [by vm_compute|]. apply perm_swap.
Qed.

Lemma kill_all_except_round_trip_witness :
  (step_iter three_queued
   = Some (handle (KillAllTasksExcept [3%nat]) 3 three_ready) ∧
   ∃ s1 s2 W,
     handle (KillAllTasksExcept [3%nat]) 3 three_ready = Ok s1 ∧
     taskmap s1 = taskmap three_ready ∧
     steps (length (ready three_ready)) s1 = Ok s2 ∧
     ready s2 = 3%nat :: W ∧ taskmap s2 = {[3%nat]}) ∧
  (step_iter sleeper_queued
   = Some (handle (KillAllTasksExcept [1%nat]) 3 sleeper_excepted) ∧
   ∃ s1 s2 s4 W W',
     handle (KillAllTasksExcept [1%nat]) 3 sleeper_excepted = Ok s1 ∧
     taskmap s1 = taskmap sleeper_excepted ∧
     steps (length (ready sleeper_excepted)) s1 = Ok s2 ∧
     ready s2 = 3%nat :: W ∧
     steps 1 s2 = Ok s4 ∧ ready s4 = W ++ W' ∧ taskmap s4 = {[1%nat]}).
Proof.
  split.
  - split; [by vm_compute|].
    destruct (kill_all_except_round_trip three_ready 3 3)
      as (s1 & ks & Hh & _ & _ & _ & Htm & _ & _ & _ & Hdrain).
    { by_compute. }
    { by_compute. }
    destruct Hdrain as (s2 & W & Hs & Hr & _ & _ & _ & Hce & _).
    { by_compute. }
    { assert (Forall (λ k, k ∈ taskmap three_ready ∧ k ≠ 3%nat ∧ k ≠ 3%nat)
                (ready three_ready)) as HF by by_compute.
      intros k Hk. by apply (proj1 (Forall_forall _ _) HF). }
    destruct Hce as [Hone _]; [done|by_compute|].
    exists s1, s2, W. by split_and!.
  - split; [by vm_compute|].
    destruct (kill_all_except_round_trip sleeper_excepted 3 1)
      as (s1 & ks & Hh & _ & _ & _ & Htm & _ & _ & _ & Hdrain).
    { by_compute. }
    { by_compute. }
    destruct Hdrain as (s2 & W & Hs & Hr & _ & _ & _ & _ & Hne).
    { by_compute. }
    { assert (Forall (λ k, k ∈ taskmap sleeper_excepted ∧ k ≠ 1%nat
                           ∧ k ≠ 3%nat)
                (ready sleeper_excepted)) as HF by by_compute.
      intros k Hk. by apply (proj1 (Forall_forall _ _) HF). }
    destruct Hne as (s4 & W' & Hs4 & Hr4 & Hone & _); [done|by_compute|].
    exists s1, s2, s4, W, W'. by split_and!.
Defined.

Lemma WaitAllTasks_spec_witness :
  ∃ s1, handle (WaitAllTasks [2; 3]%nat) 1 first_running = Ok s1 ∧
        task_waitmode s1 1 = WAIT_ALL.
Proof.
  destruct (WaitAllTasks_spec first_running 1 [2; 3]%nat)
    as (s1 & Hh & Hm & _).
  - by_compute.
  - by_compute.
  - intros k. apply first_running_unregistered.
  - by_compute.
  - by exists s1.
Defined.

Lemma WaitAnyTasks_all_or_nothing_witness :
  ∃ s', handle (WaitAnyTasks [2; 3]%nat) 1 first_running = Ok s' ∧
        task_waitmode s' 1 = WAIT_ANY ∧
        ready s' = ready first_running.
Proof.
  destruct (WaitAnyTasks_all_or_nothing first_running 1 [2; 3]%nat)
    as [Hall _].
  - intros k. apply first_running_unregistered.
  - by_compute.
  - destruct Hall as (s' & Hh & Hm & Hr & _); [by_compute|].
    by exists s'.
Defined.

Lemma kill_defers_exit_notification_witness :
  ∃ s1, handle (KillTask 3) 1 first_running = Ok s1 ∧
        exit_waiting s1 = exit_waiting first_running ∧
        taskmap s1 = taskmap first_running.
Proof.
  destruct (kill_defers_exit_notification (KillTask 3) 1 first_running
              [3%nat]) as (s1 & Hh & He & Ht & _).
  - by vm_compute.
  - by exists s1.
Defined.

Lemma timers_fire_in_order_witness :
  ∃ fired s1,
    timer_step 5 three_timers = step 5 s1 ∧
    StronglySorted entry_leq fired ∧
    fired ≡ₚ filter (λ e, entry_time e ≤ clock three_timers)
               (timer_cb three_timers).
Proof.
  destruct (timers_fire_in_order three_timers 5)
    as (_ & _ & fired & s1 & _ & Hs & Hsort & Hperm & _).
  - unfold timers_wf. by_compute.
  - by exists fired, s1.
Defined.

Lemma paused_in_syscall_not_enqueued_witness :
  occ 1 (ready (fire (Resume 1) paused_waiting))
  = occ 1 (ready paused_waiting).
Proof.
  destruct (paused_in_syscall_not_enqueued paused_waiting 1) as (Hf & _).
  - by_compute.
  - by destruct (Hf (Resume 1)).
Defined.

Lemma WaitTask_self_parks_forever_witness :
  ∃ s1, handle (WaitTask 1) 1 first_running = Ok s1 ∧
        task_sendval s1 1 = VBool true ∧
        ∀ ops s2, exec ops s1 = Ok s2 → 1%nat ∉ ready s2.
Proof.
  destruct (WaitTask_self_parks_forever first_running 1)
    as (s1 & Hh & Hv & _ & _ & _ & Hnever).
  - by_compute.
  - unfold no_wakeup_for. split_and!; by_compute.
  - exists s1. split_and!; try done.
    intros ops s2 Hex. by destruct (Hnever ops s2 Hex).
Defined.

(** Two wakeups of a task that is paused while parked.  Task 1 waits for
    task 2 and is paused: the exit of task 2 takes its registration out
    of the exit-wait registry and records the wakeup in
    [paused_in_ready].  Task 1 waits for all of [2; 2] and is paused: the
    exit of task 2 notifies it twice, the first notification moves it to
    [paused_in_ready] and the second one appends it to the ready queue,
    although nobody resumed it. *)
Lemma paused_task_wakeups :
  (1%nat ∈ paused_in_syscall paused_waiting ∧
   exit_waiting paused_waiting !! 2%nat = Some [1%nat] ∧
   ∃ s', do_op paused_waiting OpIter = Ok s' ∧
         exit_waiting s' = ∅ ∧
         elements (paused_in_ready s') = [1%nat] ∧
         ready s' = [3%nat]) ∧
  (1%nat ∈ paused_in_syscall paused_twice ∧
   ready paused_twice = [2%nat; 3%nat] ∧
   ∃ s', do_op paused_twice OpIter = Ok s' ∧
         ready s' = [3%nat; 1%nat] ∧
         elements (paused_in_ready s') = [1%nat]).
Proof.
  split.
  - split; [by_compute|]. split; [by vm_compute|].
    eexists. split; [by vm_compute|]. split; [by vm_compute|].
    split; by vm_compute.
  - split; [by_compute|]. split; [by vm_compute|].
    eexists. split; [by vm_compute|]. split; by vm_compute.
Qed.
